(** * HD44780 over an I2C port expander: the protocol core of hd44780.go

    A shallow embedding of [hd44780/hd44780.go]: the pin map, the
    split-nibble [write], the mode bitfields and their setters, the power-on
    sequence and the display operations, followed by the properties of the
    driver's specification that they decide.

    Conventions.
    - A Go [byte] is a [Z] in [0, 256); additions and left shifts are followed
      by [wrap8], the bitwise operators [&] and [|] are [Z.land] and [Z.lor].
    - [*i2c.I2C] is the external transport.  Its state is the list of bytes
      handed to [WriteByte] so far together with a fault schedule telling, for
      the n-th call, whether it reports an error.
    - A method with a pointer receiver and result [error] is a function from
      the receiver to the updated receiver and an [option error] ([None] is
      Go's [nil]).
    - [time.Sleep] has no effect on the state and is left out. *)

From Stdlib Require Import ZArith List String Ascii Bool Lia.
Import ListNotations.
Local Open Scope Z_scope.

(** ** Bytes *)

Definition wrap8 (x : Z) : Z := x mod 2 ^ 8.

(** [x << n] on bytes; a count of 8 or more gives 0. *)
Definition shl8 (x n : Z) : Z := wrap8 (Z.shiftl x n).

(** [x + y] on bytes. *)
Definition add8 (x y : Z) : Z := wrap8 (x + y).

(** [^x] on bytes. *)
Definition not8 (x : Z) : Z := Z.lxor x 255.

(** ** Constants *)

Definition lcdClearDisplay : Z := 0x01.
Definition lcdReturnHome : Z := 0x02.
Definition lcdSetCGRamAddr : Z := 0x40.
Definition lcdSetDDRamAddr : Z := 0x80.

Definition lcdSetEntryMode : Z := 0x04.
Definition lcdEntryIncrement : Z := 0x02.
Definition lcdEntryShiftOn : Z := 0x01.

Definition lcdDisplayOn : Z := 0x04.
Definition lcdBlinkCursorOn : Z := 0x01.
Definition lcdUnderlineCursorOn : Z := 0x02.
Definition lcdSetDisplayMode : Z := 0x08.

Definition lcd2Line : Z := 0x08.
Definition lcd8BitMode : Z := 0x10.
Definition lcd5x10Dots : Z := 0x04.
Definition lcdSetFunctionMode : Z := 0x20.

Definition lcdBacklightOff : Z := 0x00.
Definition lcdBacklightOn : Z := 0x08.

Definition registerSelectHigh : Z := 0x1.
Definition registerSelectLow : Z := 0x0.

(** ** Pin map *)

Definition BacklightPolarity := bool.
Definition Negative : BacklightPolarity := false.
Definition Positive : BacklightPolarity := true.

Record I2CPinMap : Type := mkPinMap {
  RS : Z; RW : Z; EN : Z;
  D4 : Z; D5 : Z; D6 : Z; D7 : Z;
  Backlight : Z;
  BLPolarity : BacklightPolarity
}.

Definition MJKDZPinMap : I2CPinMap :=
  {| RS := 6; RW := 5; EN := 4;
     D4 := 0; D5 := 1; D6 := 2; D7 := 3;
     Backlight := 7;
     BLPolarity := Negative |}.

Definition PCF8574PinMap : I2CPinMap :=
  {| RS := 0; RW := 1; EN := 2;
     D4 := 4; D5 := 5; D6 := 6; D7 := 7;
     Backlight := 3;
     BLPolarity := Positive |}.

(** ** The transport *)

Module i2c.

Inductive error : Type := Errno (code : Z).

Record I2C : Type := mkI2C {
  sent : list Z;
  faults : nat -> option error
}.

(** [WriteByte]: the byte goes on the wire log; the outcome of the call is
    read off the fault schedule at the call's index. *)
Definition WriteByte (b : Z) (bus : I2C) : I2C * option error :=
  ({| sent := sent bus ++ [b]; faults := faults bus |},
   faults bus (List.length (sent bus))).

End i2c.

Definition error : Type := i2c.error.

(** ** The connection *)

Record Hd44780I2c : Type := mkHd {
  I2C : i2c.I2C;
  PinMap : I2CPinMap;
  backlight : bool;
  eMode : Z;
  dMode : Z;
  fMode : Z
}.

Definition set_I2C (bus : i2c.I2C) (hd : Hd44780I2c) : Hd44780I2c :=
  {| I2C := bus; PinMap := PinMap hd; backlight := backlight hd;
     eMode := eMode hd; dMode := dMode hd; fMode := fMode hd |}.

Definition set_backlight (b : bool) (hd : Hd44780I2c) : Hd44780I2c :=
  {| I2C := I2C hd; PinMap := PinMap hd; backlight := b;
     eMode := eMode hd; dMode := dMode hd; fMode := fMode hd |}.

Definition set_eMode (m : Z) (hd : Hd44780I2c) : Hd44780I2c :=
  {| I2C := I2C hd; PinMap := PinMap hd; backlight := backlight hd;
     eMode := m; dMode := dMode hd; fMode := fMode hd |}.

Definition set_dMode (m : Z) (hd : Hd44780I2c) : Hd44780I2c :=
  {| I2C := I2C hd; PinMap := PinMap hd; backlight := backlight hd;
     eMode := eMode hd; dMode := m; fMode := fMode hd |}.

Definition set_fMode (m : Z) (hd : Hd44780I2c) : Hd44780I2c :=
  {| I2C := I2C hd; PinMap := PinMap hd; backlight := backlight hd;
     eMode := eMode hd; dMode := dMode hd; fMode := m |}.

(** ** Methods returning [error] *)

Definition action : Type := Hd44780I2c -> Hd44780I2c * option error.

(** [return nil]. *)
Definition ok : action := fun hd => (hd, None).

(** [err := a; if err != nil { return err }; b]. *)
Definition and_then (a b : action) : action :=
  fun hd =>
    match a hd with
    | (hd', Some e) => (hd', Some e)
    | (hd', None) => b hd'
    end.

Notation "a ;; b" := (and_then a b) (at level 61, right associativity).

(** [for _, x := range xs { err := body(x); if err != nil { return err } }]
    followed by [return nil]. *)
Fixpoint for_range {A : Type} (xs : list A) (body : A -> action) : action :=
  match xs with
  | [] => ok
  | x :: rest => body x ;; for_range rest body
  end.

(** [_, err := hd.I2C.WriteByte(b)]. *)
Definition I2C_WriteByte (b : Z) : action :=
  fun hd =>
    let (bus, err) := i2c.WriteByte b (I2C hd) in
    (set_I2C bus hd, err).

(** ** write *)

Definition write (data : Z) (rs : Z) : action :=
  fun hd =>
    let instructionHigh := 0x00 in
    let instructionHigh := Z.lor instructionHigh (shl8 (Z.land (Z.shiftr data 4) 0x01) (D4 (PinMap hd))) in
    let instructionHigh := Z.lor instructionHigh (shl8 (Z.land (Z.shiftr data 5) 0x01) (D5 (PinMap hd))) in
    let instructionHigh := Z.lor instructionHigh (shl8 (Z.land (Z.shiftr data 6) 0x01) (D6 (PinMap hd))) in
    let instructionHigh := Z.lor instructionHigh (shl8 (Z.land (Z.shiftr data 7) 0x01) (D7 (PinMap hd))) in
    let instructionLow := 0x00 in
    let instructionLow := Z.lor instructionLow (shl8 (Z.land (Z.shiftr data 0) 0x01) (D4 (PinMap hd))) in
    let instructionLow := Z.lor instructionLow (shl8 (Z.land (Z.shiftr data 1) 0x01) (D5 (PinMap hd))) in
    let instructionLow := Z.lor instructionLow (shl8 (Z.land (Z.shiftr data 2) 0x01) (D6 (PinMap hd))) in
    let instructionLow := Z.lor instructionLow (shl8 (Z.land (Z.shiftr data 3) 0x01) (D7 (PinMap hd))) in
    let instructions := [instructionHigh; instructionLow] in
    for_range instructions (fun ins hd =>
      let ins := Z.lor ins (shl8 rs (RS (PinMap hd))) in
      let ins :=
        if Bool.eqb (backlight hd) (BLPolarity (PinMap hd))
        then Z.lor ins (shl8 0x01 (Backlight (PinMap hd)))
        else ins in
      let bytes := [ins; Z.lor ins (shl8 0x01 (EN (PinMap hd))); ins] in
      for_range bytes I2C_WriteByte hd) hd.

(** [WriteChar] and [WriteInstruction]. *)
Definition WriteChar (value : Z) : action := write value registerSelectHigh.
Definition WriteInstruction (value : Z) : action := write value registerSelectLow.

(** ** Mode setters and mode registers *)

Definition ModeSetter : Type := Hd44780I2c -> Hd44780I2c.

Definition EntryDecrement : ModeSetter := fun hd => set_eMode (Z.land (eMode hd) (not8 lcdEntryIncrement)) hd.
Definition EntryIncrement : ModeSetter := fun hd => set_eMode (Z.lor (eMode hd) lcdEntryIncrement) hd.
Definition EntryShiftOff : ModeSetter := fun hd => set_eMode (Z.land (eMode hd) (not8 lcdEntryShiftOn)) hd.
Definition EntryShiftOn : ModeSetter := fun hd => set_eMode (Z.lor (eMode hd) lcdEntryShiftOn) hd.
Definition DisplayOff : ModeSetter := fun hd => set_dMode (Z.land (dMode hd) (not8 lcdDisplayOn)) hd.
Definition DisplayOn : ModeSetter := fun hd => set_dMode (Z.lor (dMode hd) lcdDisplayOn) hd.
Definition UnderlineCursorOff : ModeSetter := fun hd => set_dMode (Z.land (dMode hd) (not8 lcdUnderlineCursorOn)) hd.
Definition UnderlineCursorOn : ModeSetter := fun hd => set_dMode (Z.lor (dMode hd) lcdUnderlineCursorOn) hd.
Definition BlinkCursorOff : ModeSetter := fun hd => set_dMode (Z.land (dMode hd) (not8 lcdBlinkCursorOn)) hd.
Definition BlinkCursorOn : ModeSetter := fun hd => set_dMode (Z.lor (dMode hd) lcdBlinkCursorOn) hd.
Definition FourBitMode : ModeSetter := fun hd => set_fMode (Z.land (fMode hd) (not8 lcd8BitMode)) hd.
Definition EightBitMode : ModeSetter := fun hd => set_fMode (Z.lor (fMode hd) lcd8BitMode) hd.
Definition OneLine : ModeSetter := fun hd => set_fMode (Z.land (fMode hd) (not8 lcd2Line)) hd.
Definition TwoLine : ModeSetter := fun hd => set_fMode (Z.lor (fMode hd) lcd2Line) hd.
Definition Dots5x8 : ModeSetter := fun hd => set_fMode (Z.land (fMode hd) (not8 lcd5x10Dots)) hd.
Definition Dots5x10 : ModeSetter := fun hd => set_fMode (Z.lor (fMode hd) lcd5x10Dots) hd.

(** The sixteen mode setters the package declares, in declaration order. *)
Definition ModeSetters : list ModeSetter :=
  [ EntryDecrement; EntryIncrement; EntryShiftOff; EntryShiftOn;
    DisplayOff; DisplayOn; UnderlineCursorOff; UnderlineCursorOn;
    BlinkCursorOff; BlinkCursorOn; FourBitMode; EightBitMode;
    OneLine; TwoLine; Dots5x8; Dots5x10 ].

Definition DefaultModes : list ModeSetter :=
  [ FourBitMode; TwoLine; Dots5x8; EntryIncrement; EntryShiftOff;
    DisplayOn; UnderlineCursorOff; BlinkCursorOff ].

Definition setEntryMode : action :=
  fun hd => WriteInstruction (Z.lor lcdSetEntryMode (eMode hd)) hd.
Definition setDisplayMode : action :=
  fun hd => WriteInstruction (Z.lor lcdSetDisplayMode (dMode hd)) hd.
Definition setFunctionMode : action :=
  fun hd => WriteInstruction (Z.lor lcdSetFunctionMode (fMode hd)) hd.

(** [for _, m := range modes { m(hd) }]. *)
Definition apply_modes (modes : list ModeSetter) (hd : Hd44780I2c) : Hd44780I2c :=
  fold_left (fun h m => m h) modes hd.

Definition SetMode (modes : list ModeSetter) : action :=
  fun hd =>
    let hd := apply_modes modes hd in
    let functions := [setEntryMode; setDisplayMode; setFunctionMode] in
    for_range functions (fun f => f) hd.

(** Mode query accessors. *)
Definition EntryIncrementEnabled (hd : Hd44780I2c) : bool := Z.land (eMode hd) lcdEntryIncrement >? 0.
Definition EntryShiftEnabled (hd : Hd44780I2c) : bool := Z.land (eMode hd) lcdEntryShiftOn >? 0.
Definition DisplayEnabled (hd : Hd44780I2c) : bool := Z.land (dMode hd) lcdDisplayOn >? 0.
Definition CursorEnabled (hd : Hd44780I2c) : bool := Z.land (dMode hd) lcdUnderlineCursorOn >? 0.
Definition BlinkEnabled (hd : Hd44780I2c) : bool := Z.land (dMode hd) lcdBlinkCursorOn >? 0.
Definition EightBitModeEnabled (hd : Hd44780I2c) : bool := Z.land (fMode hd) lcd8BitMode >? 0.
Definition TwoLineEnabled (hd : Hd44780I2c) : bool := Z.land (fMode hd) lcd2Line >? 0.

(** ** Clear, power-on sequence, constructor *)

Definition Clear : action :=
  WriteInstruction lcdClearDisplay ;; SetMode [].

Definition lcdInit : action :=
  WriteInstruction 0x03 ;;
  WriteInstruction 0x03 ;;
  WriteInstruction 0x03 ;;
  WriteInstruction 0x02 ;;
  Clear.

(** [NewHd44780I2c]: the connection is returned only when both steps
    succeed; the transport, which the caller still holds, is returned in
    every case. *)
Definition NewHd44780I2c (i2c : i2c.I2C) (pinMap : I2CPinMap) (modes : list ModeSetter)
  : i2c.I2C * (Hd44780I2c + error) :=
  let c := {| I2C := i2c; PinMap := pinMap; backlight := true;
              eMode := 0x00; dMode := 0x00; fMode := 0x00 |} in
  match lcdInit c with
  | (c, Some err) => (I2C c, inr err)
  | (c, None) =>
      match SetMode (DefaultModes ++ modes) c with
      | (c, Some err) => (I2C c, inr err)
      | (c, None) => (I2C c, inl c)
      end
  end.

(** ** Backlight *)

Definition BacklightOn : action :=
  fun hd => I2C_WriteByte lcdBacklightOn (set_backlight true hd).

Definition BacklightOff : action :=
  fun hd => I2C_WriteByte lcdBacklightOff (set_backlight false hd).

(** ** Strings and DisplayString *)

(** The bytes of a Go string. *)
Definition bytes_of (s : string) : list Z :=
  map (fun a => Z.of_N (N_of_ascii a)) (list_ascii_of_string s).

Definition RuneError : Z := 0xFFFD.

(** A UTF-8 continuation byte. *)
Definition continuation (b : Z) : bool := (0x80 <=? b) && (b <=? 0xBF).

(** The runes [for _, c := range str] yields: the string's bytes decoded as
    UTF-8, every byte that does not start a well-formed sequence giving
    [RuneError] and being skipped alone. *)
Fixpoint range_runes (s : list Z) : list Z :=
  match s with
  | [] => []
  | s0 :: t =>
      if s0 <? 0x80 then s0 :: range_runes t
      else if (s0 <? 0xC2) || (0xF4 <? s0) then RuneError :: range_runes t
      else if s0 <? 0xE0 then
        match t with
        | s1 :: t1 =>
            if continuation s1
            then Z.lor (Z.shiftl (Z.land s0 0x1F) 6) (Z.land s1 0x3F) :: range_runes t1
            else RuneError :: range_runes t
        | _ => RuneError :: range_runes t
        end
      else if s0 <? 0xF0 then
        let lo := if s0 =? 0xE0 then 0xA0 else 0x80 in
        let hi := if s0 =? 0xED then 0x9F else 0xBF in
        match t with
        | s1 :: s2 :: t2 =>
            if (lo <=? s1) && (s1 <=? hi) && continuation s2
            then Z.lor (Z.shiftl (Z.land s0 0x0F) 12)
                   (Z.lor (Z.shiftl (Z.land s1 0x3F) 6) (Z.land s2 0x3F))
                 :: range_runes t2
            else RuneError :: range_runes t
        | _ => RuneError :: range_runes t
        end
      else
        let lo := if s0 =? 0xF0 then 0x90 else 0x80 in
        let hi := if s0 =? 0xF4 then 0x8F else 0xBF in
        match t with
        | s1 :: s2 :: s3 :: t3 =>
            if (lo <=? s1) && (s1 <=? hi) && continuation s2 && continuation s3
            then Z.lor (Z.shiftl (Z.land s0 0x07) 18)
                   (Z.lor (Z.shiftl (Z.land s1 0x3F) 12)
                      (Z.lor (Z.shiftl (Z.land s2 0x3F) 6) (Z.land s3 0x3F)))
                 :: range_runes t3
            else RuneError :: range_runes t
        | _ => RuneError :: range_runes t
        end
  end.

(** The DDRAM address the [switch line] computes; a line other than 1..4
    leaves the zero value of [address]. *)
Definition line_address (line pos : Z) : Z :=
  let address := 0 in
  if line =? 1 then pos
  else if line =? 2 then add8 0x40 pos
  else if line =? 3 then add8 0x10 pos
  else if line =? 4 then add8 0x54 pos
  else address.

Definition DisplayString (str : string) (line pos : Z) : action :=
  let address := line_address line pos in
  WriteInstruction (add8 lcdSetDDRamAddr address) ;;
  for_range (range_runes (bytes_of str)) (fun c => WriteChar (wrap8 c)).

(** ** The frame encoder, factored out of [write] *)

(** The value of [instructionHigh] after its four assignments. *)
Definition instructionHigh (pm : I2CPinMap) (data : Z) : Z :=
  Z.lor (Z.lor (Z.lor (Z.lor 0x00
    (shl8 (Z.land (Z.shiftr data 4) 0x01) (D4 pm)))
    (shl8 (Z.land (Z.shiftr data 5) 0x01) (D5 pm)))
    (shl8 (Z.land (Z.shiftr data 6) 0x01) (D6 pm)))
    (shl8 (Z.land (Z.shiftr data 7) 0x01) (D7 pm)).

(** The value of [instructionLow] after its four assignments. *)
Definition instructionLow (pm : I2CPinMap) (data : Z) : Z :=
  Z.lor (Z.lor (Z.lor (Z.lor 0x00
    (shl8 (Z.land (Z.shiftr data 0) 0x01) (D4 pm)))
    (shl8 (Z.land (Z.shiftr data 1) 0x01) (D5 pm)))
    (shl8 (Z.land (Z.shiftr data 2) 0x01) (D6 pm)))
    (shl8 (Z.land (Z.shiftr data 3) 0x01) (D7 pm)).

(** [ins] after the register-select and backlight bits are or-ed in. *)
Definition with_control (pm : I2CPinMap) (bl : bool) (rs : Z) (ins : Z) : Z :=
  let ins := Z.lor ins (shl8 rs (RS pm)) in
  if Bool.eqb bl (BLPolarity pm)
  then Z.lor ins (shl8 0x01 (Backlight pm))
  else ins.

(** The two frames of one byte write: high nibble, then low nibble. *)
Definition frames (pm : I2CPinMap) (bl : bool) (data rs : Z) : Z * Z :=
  (with_control pm bl rs (instructionHigh pm data),
   with_control pm bl rs (instructionLow pm data)).

(** The three bus bytes of one frame. *)
Definition strobe (pm : I2CPinMap) (ins : Z) : list Z :=
  [ins; Z.lor ins (shl8 0x01 (EN pm)); ins].

(** The six bus bytes of one byte write, in the order they are sent. *)
Definition wire_bytes (pm : I2CPinMap) (bl : bool) (data rs : Z) : list Z :=
  strobe pm (fst (frames pm bl data rs)) ++ strobe pm (snd (frames pm bl data rs)).

(** Reading a frame back: the nibble on the D4..D7 positions. *)
Definition decode_nibble (pm : I2CPinMap) (frame : Z) : Z :=
  Z.b2z (Z.testbit frame (D4 pm))
  + 2 * Z.b2z (Z.testbit frame (D5 pm))
  + 4 * Z.b2z (Z.testbit frame (D6 pm))
  + 8 * Z.b2z (Z.testbit frame (D7 pm)).

(** The byte made of a high and a low nibble. *)
Definition recombine (hi lo : Z) : Z := 16 * hi + lo.

(** ** Well-formed pin maps *)

Definition positions (pm : I2CPinMap) : list Z :=
  [RS pm; RW pm; EN pm; D4 pm; D5 pm; D6 pm; D7 pm; Backlight pm].

(** The eight signals sit on pairwise distinct bits of one byte. *)
Definition valid_pinmap (pm : I2CPinMap) : Prop :=
  NoDup (positions pm) /\ Forall (fun p => 0 <= p < 8) (positions pm).

(** ** Fault schedules *)

(** The first of the [len] calls starting at call [start] that fails, as an
    offset from [start], with its error. *)
Fixpoint first_fault (f : nat -> option error) (start len : nat) : option (nat * error) :=
  match len with
  | O => None
  | S len' =>
      match f start with
      | Some e => Some (O, e)
      | None =>
          match first_fault f (S start) len' with
          | Some (k, e) => Some (S k, e)
          | None => None
          end
      end
  end.

(** The transport after [bs] have been handed to it. *)
Definition bus_after (bus : i2c.I2C) (bs : list Z) : i2c.I2C :=
  {| i2c.sent := i2c.sent bus ++ bs; i2c.faults := i2c.faults bus |}.

(** A transport on which every write succeeds. *)
Definition healthy_bus : i2c.I2C :=
  {| i2c.sent := []; i2c.faults := fun _ => None |}.

(** Handing a list of bytes to the transport one by one, stopping at the
    first error: the inner loop of [write]. *)
Definition send (bs : list Z) : action := for_range bs I2C_WriteByte.

(** The bus bytes of a sequence of byte writes, each given as the byte and
    its register-select flag. *)
Definition wire_of (pm : I2CPinMap) (bl : bool) (ws : list (Z * Z)) : list Z :=
  flat_map (fun w => wire_bytes pm bl (fst w) (snd w)) ws.

(** Two connections that differ at most in the state of the transport. *)
Definition same_fields (hd hd' : Hd44780I2c) : Prop :=
  PinMap hd' = PinMap hd /\ backlight hd' = backlight hd
  /\ eMode hd' = eMode hd /\ dMode hd' = dMode hd /\ fMode hd' = fMode hd.

(** What an action appended to the wire log. *)
Definition emitted (a : action) (hd : Hd44780I2c) : list Z :=
  skipn (List.length (i2c.sent (I2C hd))) (i2c.sent (I2C (fst (a hd)))).

(** A connection as the constructor leaves it with the default modes on a
    PCF8574 backpack, its wire log empty. *)
Definition demo_lcd : Hd44780I2c :=
  {| I2C := healthy_bus; PinMap := PCF8574PinMap; backlight := true;
     eMode := 0x02; dMode := 0x04; fMode := 0x08 |}.

(** A transport that refuses its [n]-th byte and accepts the others. *)
Definition failing_at (n : nat) (e : error) : i2c.I2C :=
  {| i2c.sent := []; i2c.faults := fun j => if Nat.eqb j n then Some e else None |}.

(** The three instructions that commit the mode registers, in the order
    [SetMode] issues them. *)
Definition mode_instructions (hd : Hd44780I2c) : list (Z * Z) :=
  [ (Z.lor lcdSetEntryMode (eMode hd), registerSelectLow);
    (Z.lor lcdSetDisplayMode (dMode hd), registerSelectLow);
    (Z.lor lcdSetFunctionMode (fMode hd), registerSelectLow) ].

(** The instructions of [lcdInit] up to and including the clear. *)
Definition init_instructions : list (Z * Z) :=
  [ (0x03, registerSelectLow); (0x03, registerSelectLow); (0x03, registerSelectLow);
    (0x02, registerSelectLow); (lcdClearDisplay, registerSelectLow) ].

(** A pin map in which D4 and the backlight share bit 2. *)
Definition shared_bit_pinmap : I2CPinMap :=
  {| RS := 0; RW := 1; EN := 3;
     D4 := 2; D5 := 5; D6 := 6; D7 := 7;
     Backlight := 2;
     BLPolarity := Positive |}.

(** ** The remaining operations of hd44780.go *)

Definition lcdCursorShift : Z := 0x10.
Definition lcdMoveLeft : Z := 0x00.
Definition lcdMoveRight : Z := 0x04.
Definition lcdDisplayMove : Z := 0x08.

Definition maxInt (a b : Z) : Z := if a >? b then a else b.

(** The loop of [Write]: [i] is the index of the first byte of [rest] in the
    buffer; [Some (n, err)] is the early [return n, err]. *)
Fixpoint Write_loop (i : Z) (rest : list Z) (hd : Hd44780I2c)
  : Hd44780I2c * option (Z * error) :=
  match rest with
  | [] => (hd, None)
  | c :: rest' =>
      match WriteChar c hd with
      | (hd', Some err) => (hd', Some (maxInt (i - 1) 0, err))
      | (hd', None) => Write_loop (i + 1) rest' hd'
      end
  end.

(** [Write]: the count and the error it returns. *)
Definition Write (buf : list Z) (hd : Hd44780I2c) : Hd44780I2c * (Z * option error) :=
  match Write_loop 0 buf hd with
  | (hd', Some (n, err)) => (hd', (n, Some err))
  | (hd', None) => (hd', (Z.of_nat (List.length buf), None))
  end.

Definition SetDDRamAddr (value : Z) : action :=
  WriteInstruction (Z.lor lcdSetDDRamAddr value).

Definition ShiftLeft : action :=
  WriteInstruction (Z.lor (Z.lor lcdCursorShift lcdDisplayMove) lcdMoveLeft).

Definition ShiftRight : action :=
  WriteInstruction (Z.lor (Z.lor lcdCursorShift lcdDisplayMove) lcdMoveRight).

Definition Home : action := WriteInstruction lcdReturnHome.

(** [LoadCustomChars]: [chars] is the [[8]CustomChar] array, each element the
    eight rows of one glyph. *)
Definition LoadCustomChars (chars : list (list Z)) : action :=
  WriteInstruction lcdSetCGRamAddr ;;
  for_range chars (fun c => for_range c WriteChar).

(** The methods that change one mode flag and write its register; they bear
    the names of the mode setters they call. *)
Module Method.

Definition DisplayOff : action := fun hd => setDisplayMode (DisplayOff hd).
Definition DisplayOn : action := fun hd => setDisplayMode (DisplayOn hd).
Definition UnderlineCursorOff : action := fun hd => setDisplayMode (UnderlineCursorOff hd).
Definition UnderlineCursorOn : action := fun hd => setDisplayMode (UnderlineCursorOn hd).
Definition BlinkCursorOff : action := fun hd => setDisplayMode (BlinkCursorOff hd).
Definition BlinkCursorOn : action := fun hd => setDisplayMode (BlinkCursorOn hd).
Definition EntryShiftOn : action := fun hd => setEntryMode (EntryShiftOn hd).
Definition EntryShiftOff : action := fun hd => setEntryMode (EntryShiftOff hd).

End Method.

(** ** The receiving end of the bus *)




(** ** Invariants of the mode bitfields *)

(** Each bitfield holds flags of its own register only: bits 0..1 for the
    entry mode, 0..2 for the display mode, 2..4 for the function mode. *)
Definition modes_in_range (hd : Hd44780I2c) : Prop :=
  Z.land (eMode hd) 0x03 = eMode hd
  /\ Z.land (dMode hd) 0x07 = dMode hd
  /\ Z.land (fMode hd) 0x1C = fMode hd.

(** The bitfields are bytes. *)
Definition modes_are_bytes (hd : Hd44780I2c) : Prop :=
  0 <= eMode hd < 256 /\ 0 <= dMode hd < 256 /\ 0 <= fMode hd < 256.

(** The UTF-8 encoding of a code point below 0x800, as a Go string holds
    it. *)
Definition utf8_of_rune (r : Z) : string :=
  if r <? 0x80
  then String (ascii_of_N (Z.to_N r)) EmptyString
  else String (ascii_of_N (Z.to_N (Z.lor 0xC0 (Z.shiftr r 6))))
         (String (ascii_of_N (Z.to_N (Z.lor 0x80 (Z.land r 0x3F)))) EmptyString).

(** The same connection on an MJKDZ backpack. *)
Definition demo_mjkdz : Hd44780I2c :=
  {| I2C := healthy_bus; PinMap := MJKDZPinMap; backlight := true;
     eMode := 0x02; dMode := 0x04; fMode := 0x08 |}.

(** The eight battery glyphs of the [CustomChar] documentation. *)
Definition battery_chars : list (list Z) :=
  [ [0xe; 0x1b; 0x11; 0x11; 0x11; 0x11; 0x11; 0x1f];
    [0xe; 0x1b; 0x11; 0x11; 0x11; 0x11; 0x1f; 0x1f];
    [0xe; 0x1b; 0x11; 0x11; 0x11; 0x1f; 0x1f; 0x1f];
    [0xe; 0x1b; 0x11; 0x11; 0x1f; 0x1f; 0x1f; 0x1f];
    [0xe; 0x1b; 0x11; 0x1f; 0x1f; 0x1f; 0x1f; 0x1f];
    [0xe; 0x1b; 0x1f; 0x1f; 0x1f; 0x1f; 0x1f; 0x1f];
    [0xe; 0x1f; 0x1f; 0x1f; 0x1f; 0x1f; 0x1f; 0x1f];
    [0x0; 0x0; 0x0; 0x0; 0x0; 0x0; 0x0; 0x0] ].

(** The shape of a [[8]CustomChar]: eight glyphs of eight rows. *)
Definition custom_chars_shape (chars : list (list Z)) : Prop :=
  List.length chars = 8%nat /\ Forall (fun c => List.length c = 8%nat) chars.

(** The answers of the seven mode queries, in the order the package
    declares them. *)
Definition queries (hd : Hd44780I2c) : bool * bool * bool * bool * bool * bool * bool :=
  (EntryIncrementEnabled hd, EntryShiftEnabled hd, DisplayEnabled hd,
   CursorEnabled hd, BlinkEnabled hd, EightBitModeEnabled hd, TwoLineEnabled hd).

(** The pairs of setters that clear and set the same flag. *)
Definition opposite_setters : list (ModeSetter * ModeSetter) :=
  [ (EntryDecrement, EntryIncrement); (EntryShiftOff, EntryShiftOn);
    (DisplayOff, DisplayOn); (UnderlineCursorOff, UnderlineCursorOn);
    (BlinkCursorOff, BlinkCursorOn); (FourBitMode, EightBitMode);
    (OneLine, TwoLine); (Dots5x8, Dots5x10) ].

(** The eight single-flag methods, each with the mode setter it calls and the
    instruction byte of the register it writes afterwards. *)
Definition flag_methods : list (action * ModeSetter * (Hd44780I2c -> Z)) :=
  [ (Method.DisplayOff, DisplayOff, fun hd => Z.lor lcdSetDisplayMode (dMode hd));
    (Method.DisplayOn, DisplayOn, fun hd => Z.lor lcdSetDisplayMode (dMode hd));
    (Method.UnderlineCursorOff, UnderlineCursorOff,
     fun hd => Z.lor lcdSetDisplayMode (dMode hd));
    (Method.UnderlineCursorOn, UnderlineCursorOn,
     fun hd => Z.lor lcdSetDisplayMode (dMode hd));
    (Method.BlinkCursorOff, BlinkCursorOff, fun hd => Z.lor lcdSetDisplayMode (dMode hd));
    (Method.BlinkCursorOn, BlinkCursorOn, fun hd => Z.lor lcdSetDisplayMode (dMode hd));
    (Method.EntryShiftOn, EntryShiftOn, fun hd => Z.lor lcdSetEntryMode (eMode hd));
    (Method.EntryShiftOff, EntryShiftOff, fun hd => Z.lor lcdSetEntryMode (eMode hd)) ].

(** The DDRAM address at which [DisplayString] takes a line to start. *)
Definition row_base (line : Z) : Z :=
  if line =? 1 then 0x00
  else if line =? 2 then 0x40
  else if line =? 3 then 0x10
  else 0x54.

(** Equality of two lists of bytes, as a test. *)
Fixpoint bytes_eqb (xs ys : list Z) : bool :=
  match xs, ys with
  | [], [] => true
  | x :: xs', y :: ys' => (x =? y) && bytes_eqb xs' ys'
  | _, _ => false
  end.

(** [hd'] is [hd] with some bytes appended to the wire log and nothing else
    changed. *)
Definition only_appends (hd hd' : Hd44780I2c) : Prop :=
  exists bs, hd' = set_I2C (bus_after (I2C hd) bs) hd.

(** ** The first revision of the driver *)

(** The revision of hd44780.go that precedes the pin map: the expander is
    wired as on a PCF8574 backpack and the connection holds the transport
    and the backlight flag only.  Its [fmt] output is left out. *)
Module Legacy.

Record Hd44780I2c : Type := mkHd {
  I2C : i2c.I2C;
  backlight : bool
}.

Definition action : Type := Hd44780I2c -> Hd44780I2c * option error.

Definition ok : action := fun this => (this, None).

Definition and_then (a b : action) : action :=
  fun this =>
    match a this with
    | (this', Some e) => (this', Some e)
    | (this', None) => b this'
    end.

Definition I2C_WriteByte (b : Z) : action :=
  fun this =>
    let (bus, err) := i2c.WriteByte b (I2C this) in
    ({| I2C := bus; backlight := backlight this |}, err).

Definition enableBit : Z := 0x4.

Definition strobe (data : Z) : action :=
  and_then (I2C_WriteByte (Z.lor data enableBit))
    (and_then (I2C_WriteByte (Z.land data (not8 enableBit))) ok).

Definition writeFourBits (data : Z) : action :=
  and_then (I2C_WriteByte data) (and_then (strobe data) ok).

Definition prepareFirstFourBits (data : Z) (this : Hd44780I2c) : Z :=
  if backlight this
  then Z.lor (Z.land data 0xF0) lcdBacklightOn
  else Z.lor (Z.land data 0xF0) lcdBacklightOff.

Definition prepareSecondFourBits (data : Z) (this : Hd44780I2c) : Z :=
  if backlight this
  then Z.lor (Z.land (shl8 data 4) 0xF0) lcdBacklightOn
  else Z.lor (Z.land (shl8 data 4) 0xF0) lcdBacklightOff.

Definition writeByte (data rs : Z) : action :=
  fun this =>
    let first := prepareFirstFourBits data this in
    let second := prepareSecondFourBits data this in
    and_then (writeFourBits (Z.lor rs first)) (writeFourBits (Z.lor rs second)) this.

End Legacy.

(** A connection of the current revision seen as one of the first. *)
Definition as_legacy (hd : Hd44780I2c) : Legacy.Hd44780I2c :=
  {| Legacy.I2C := I2C hd; Legacy.backlight := backlight hd |}.

(** The six bytes the first revision hands to the transport for one byte
    write, in order. *)
Definition legacy_bytes (bl : bool) (data rs : Z) : list Z :=
  let light := if bl then lcdBacklightOn else lcdBacklightOff in
  let first := Z.lor rs (Z.lor (Z.land data 0xF0) light) in
  let second := Z.lor rs (Z.lor (Z.land (shl8 data 4) 0xF0) light) in
  [ first; Z.lor first Legacy.enableBit; Z.land first (not8 Legacy.enableBit);
    second; Z.lor second Legacy.enableBit; Z.land second (not8 Legacy.enableBit) ].

(** Handing bytes to the transport until one is refused, in the first
    revision. *)
Fixpoint legacy_send (bs : list Z) : Legacy.action :=
  match bs with
  | [] => Legacy.ok
  | b :: rest => Legacy.and_then (Legacy.I2C_WriteByte b) (legacy_send rest)
  end.

(** * Properties *)

(** ** Bits of the encoder's building blocks *)

Lemma testbit_shl8 (x n i : Z) :
  0 <= n -> 0 <= i ->
  Z.testbit (shl8 x n) i = (i <? 8) && Z.testbit x (i - n).
Proof.
  intros Hn Hi. unfold shl8, wrap8.
  rewrite Z.testbit_mod_pow2 by lia.
  now rewrite Z.shiftl_spec by assumption.
Qed.

Lemma testbit_data_bit (data k j : Z) :
  0 <= k ->
  Z.testbit (Z.land (Z.shiftr data k) 1) j = (j =? 0) && Z.testbit data k.
Proof.
  intros Hk. rewrite Z.land_spec.
  destruct (Z.eqb_spec j 0) as [->|Hj].
  - rewrite Z.shiftr_spec by lia. simpl. now rewrite andb_true_r.
  - simpl. destruct (Z.ltb_spec j 0).
    + now rewrite (Z.testbit_neg_r 1) by assumption; rewrite andb_false_r.
    + replace (Z.testbit 1 j) with false; [now rewrite andb_false_r|].
      symmetry. apply (Z.pow2_bits_false 0). lia.
Qed.

(** One data line: bit [k] of [data] placed on pin [n]. *)
Lemma testbit_line (data k n i : Z) :
  0 <= k -> 0 <= n -> 0 <= i ->
  Z.testbit (shl8 (Z.land (Z.shiftr data k) 1) n) i
  = (i <? 8) && (i =? n) && Z.testbit data k.
Proof.
  intros Hk Hn Hi. rewrite testbit_shl8, testbit_data_bit by assumption.
  destruct (Z.eqb_spec (i - n) 0), (Z.eqb_spec i n); try lia; now rewrite andb_assoc.
Qed.

(** A single control bit on pin [n]. *)
Lemma testbit_pin (n i : Z) :
  0 <= n -> 0 <= i ->
  Z.testbit (shl8 1 n) i = (i <? 8) && (i =? n).
Proof.
  intros Hn Hi. rewrite testbit_shl8 by assumption.
  destruct (Z.eqb_spec i n) as [->|Hne].
  - now rewrite Z.sub_diag.
  - replace (Z.testbit 1 (i - n)) with false; [reflexivity|].
    symmetry. destruct (Z.ltb_spec (i - n) 0).
    + now apply Z.testbit_neg_r.
    + apply (Z.pow2_bits_false 0). lia.
Qed.

Lemma testbit_rs (rs n i : Z) :
  rs = registerSelectLow \/ rs = registerSelectHigh ->
  0 <= n -> 0 <= i ->
  Z.testbit (shl8 rs n) i = (i <? 8) && (i =? n) && (rs =? 1).
Proof.
  intros [->| ->] Hn Hi.
  - rewrite testbit_shl8 by assumption. unfold registerSelectLow.
    rewrite Z.testbit_0_l. simpl. now rewrite !andb_false_r.
  - unfold registerSelectHigh. rewrite testbit_pin by assumption.
    simpl. now rewrite andb_true_r.
Qed.

Lemma testbit_instructionHigh (pm : I2CPinMap) (data i : Z) :
  0 <= D4 pm -> 0 <= D5 pm -> 0 <= D6 pm -> 0 <= D7 pm -> 0 <= i ->
  Z.testbit (instructionHigh pm data) i
  = (i <? 8) && ((i =? D4 pm) && Z.testbit data 4 || (i =? D5 pm) && Z.testbit data 5
                 || (i =? D6 pm) && Z.testbit data 6 || (i =? D7 pm) && Z.testbit data 7).
Proof.
  intros. unfold instructionHigh.
  rewrite !Z.lor_spec, !testbit_line, Z.testbit_0_l by lia.
  destruct (i <? 8); reflexivity.
Qed.

Lemma testbit_instructionLow (pm : I2CPinMap) (data i : Z) :
  0 <= D4 pm -> 0 <= D5 pm -> 0 <= D6 pm -> 0 <= D7 pm -> 0 <= i ->
  Z.testbit (instructionLow pm data) i
  = (i <? 8) && ((i =? D4 pm) && Z.testbit data 0 || (i =? D5 pm) && Z.testbit data 1
                 || (i =? D6 pm) && Z.testbit data 2 || (i =? D7 pm) && Z.testbit data 3).
Proof.
  intros. unfold instructionLow.
  rewrite !Z.lor_spec, !testbit_line, Z.testbit_0_l by lia.
  destruct (i <? 8); reflexivity.
Qed.

Lemma testbit_with_control (pm : I2CPinMap) (bl : bool) (rs ins i : Z) :
  rs = registerSelectLow \/ rs = registerSelectHigh ->
  0 <= RS pm -> 0 <= Backlight pm -> 0 <= i ->
  Z.testbit (with_control pm bl rs ins) i
  = Z.testbit ins i
    || (i <? 8) && (i =? RS pm) && (rs =? 1)
    || (i <? 8) && (i =? Backlight pm) && Bool.eqb bl (BLPolarity pm).
Proof.
  intros Hrs HRS HBL Hi. unfold with_control.
  destruct (Bool.eqb bl (BLPolarity pm)).
  - rewrite !Z.lor_spec, testbit_rs, testbit_pin by assumption.
    now rewrite andb_true_r.
  - rewrite Z.lor_spec, testbit_rs by assumption.
    now rewrite andb_false_r, orb_false_r.
Qed.

(** ** Well-formed pin maps: bounds and distinctness *)

Lemma valid_pinmap_bounds (pm : I2CPinMap) :
  valid_pinmap pm ->
  (0 <= RS pm < 8 /\ 0 <= RW pm < 8 /\ 0 <= EN pm < 8 /\ 0 <= Backlight pm < 8)
  /\ (0 <= D4 pm < 8 /\ 0 <= D5 pm < 8 /\ 0 <= D6 pm < 8 /\ 0 <= D7 pm < 8).
Proof.
  intros [_ Hrg]. unfold positions in Hrg.
  rewrite !Forall_cons_iff in Hrg. tauto.
Qed.

Lemma valid_pinmap_distinct (pm : I2CPinMap) (i j : nat) :
  valid_pinmap pm ->
  (i <? 8)%nat = true -> (j <? 8)%nat = true -> (i =? j)%nat = false ->
  nth i (positions pm) 0 <> nth j (positions pm) 0.
Proof.
  intros [Hnd _] Hi Hj Hij Heq.
  apply Nat.ltb_lt in Hi, Hj. apply Nat.eqb_neq in Hij. apply Hij.
  exact (proj1 (NoDup_nth (positions pm) 0) Hnd i j Hi Hj Heq).
Qed.

(** Settles [a <> b] for two different signals of a valid pin map. *)
Ltac pin_neq_at Hpm i :=
  first [ exact (valid_pinmap_distinct _ i 0 Hpm eq_refl eq_refl eq_refl)
        | exact (valid_pinmap_distinct _ i 1 Hpm eq_refl eq_refl eq_refl)
        | exact (valid_pinmap_distinct _ i 2 Hpm eq_refl eq_refl eq_refl)
        | exact (valid_pinmap_distinct _ i 3 Hpm eq_refl eq_refl eq_refl)
        | exact (valid_pinmap_distinct _ i 4 Hpm eq_refl eq_refl eq_refl)
        | exact (valid_pinmap_distinct _ i 5 Hpm eq_refl eq_refl eq_refl)
        | exact (valid_pinmap_distinct _ i 6 Hpm eq_refl eq_refl eq_refl)
        | exact (valid_pinmap_distinct _ i 7 Hpm eq_refl eq_refl eq_refl) ].

Ltac pin_neq Hpm :=
  first [ pin_neq_at Hpm 0%nat | pin_neq_at Hpm 1%nat | pin_neq_at Hpm 2%nat
        | pin_neq_at Hpm 3%nat | pin_neq_at Hpm 4%nat | pin_neq_at Hpm 5%nat
        | pin_neq_at Hpm 6%nat | pin_neq_at Hpm 7%nat ].

(** Decides every comparison between two signals' positions in the goal. *)
Ltac pin_eqb Hpm :=
  repeat match goal with
         | |- context [?a =? ?a] => rewrite (Z.eqb_refl a)
         | |- context [?a =? ?b] =>
             rewrite (proj2 (Z.eqb_neq a b)) by pin_neq Hpm
         end.

Lemma PCF8574PinMap_valid : valid_pinmap PCF8574PinMap.
Proof.
  split; unfold positions; simpl.
  - repeat constructor; simpl; lia.
  - repeat constructor; lia.
Qed.

Lemma MJKDZPinMap_valid : valid_pinmap MJKDZPinMap.
Proof.
  split; unfold positions; simpl.
  - repeat constructor; simpl; lia.
  - repeat constructor; lia.
Qed.

(** A byte is the sum of its eight bits. *)
Lemma nibbles_of_byte (v : Z) :
  0 <= v < 256 ->
  Z.b2z (Z.testbit v 4) + 2 * Z.b2z (Z.testbit v 5)
  + 4 * Z.b2z (Z.testbit v 6) + 8 * Z.b2z (Z.testbit v 7) = v / 16
  /\ Z.b2z (Z.testbit v 0) + 2 * Z.b2z (Z.testbit v 1)
     + 4 * Z.b2z (Z.testbit v 2) + 8 * Z.b2z (Z.testbit v 3) = v mod 16.
Proof.
  intros Hv. rewrite !Z.testbit_spec' by lia.
  change (2 ^ 0) with 1; change (2 ^ 1) with 2; change (2 ^ 2) with 4;
  change (2 ^ 3) with 8; change (2 ^ 4) with 16; change (2 ^ 5) with 32;
  change (2 ^ 6) with 64; change (2 ^ 7) with 128.
  split; Z.div_mod_to_equations; lia.
Qed.

(** The data lines of the two frames. *)
Lemma frames_data_lines (pm : I2CPinMap) (bl : bool) (v r : Z) :
  valid_pinmap pm ->
  r = registerSelectLow \/ r = registerSelectHigh ->
  (Z.testbit (fst (frames pm bl v r)) (D4 pm) = Z.testbit v 4
   /\ Z.testbit (fst (frames pm bl v r)) (D5 pm) = Z.testbit v 5
   /\ Z.testbit (fst (frames pm bl v r)) (D6 pm) = Z.testbit v 6
   /\ Z.testbit (fst (frames pm bl v r)) (D7 pm) = Z.testbit v 7)
  /\ (Z.testbit (snd (frames pm bl v r)) (D4 pm) = Z.testbit v 0
      /\ Z.testbit (snd (frames pm bl v r)) (D5 pm) = Z.testbit v 1
      /\ Z.testbit (snd (frames pm bl v r)) (D6 pm) = Z.testbit v 2
      /\ Z.testbit (snd (frames pm bl v r)) (D7 pm) = Z.testbit v 3).
Proof.
  intros Hpm Hr.
  destruct (valid_pinmap_bounds pm Hpm) as [(HRS & _ & _ & HBL) (H4 & H5 & H6 & H7)].
  assert (L : forall p, 0 <= p < 8 -> (p <? 8) = true) by (intros; lia).
  unfold frames, fst, snd.
  repeat split;
    rewrite testbit_with_control by (assumption || lia);
    rewrite ?testbit_instructionHigh, ?testbit_instructionLow by lia;
    pin_eqb Hpm; rewrite ?L by assumption;
    simpl; rewrite ?andb_false_r, ?orb_false_r; reflexivity.
Qed.

(** ** Running the bus loop *)

Lemma set_I2C_same (hd : Hd44780I2c) : set_I2C (bus_after (I2C hd) []) hd = hd.
Proof.
  destruct hd as [[snt flt] pm bl e d f]. unfold set_I2C, bus_after. simpl.
  now rewrite app_nil_r.
Qed.

(** [send] hands over the bytes up to and including the first one the
    transport refuses, returns that error, and touches nothing but the
    transport. *)
Lemma send_spec (bs : list Z) (hd : Hd44780I2c) :
  send bs hd =
  match first_fault (i2c.faults (I2C hd)) (List.length (i2c.sent (I2C hd))) (List.length bs) with
  | None => (set_I2C (bus_after (I2C hd) bs) hd, None)
  | Some (k, e) => (set_I2C (bus_after (I2C hd) (firstn (S k) bs)) hd, Some e)
  end.
Proof.
  revert hd. induction bs as [|b bs IH]; intros hd.
  - simpl. unfold send, for_range, ok. now rewrite set_I2C_same.
  - unfold send in *. simpl for_range. unfold and_then at 1.
    unfold I2C_WriteByte, i2c.WriteByte. simpl List.length. simpl first_fault.
    destruct (i2c.faults (I2C hd) (List.length (i2c.sent (I2C hd)))) as [e|] eqn:Hf.
    + reflexivity.
    + rewrite IH. simpl. rewrite length_app. simpl List.length.
      rewrite Nat.add_1_r.
      destruct (first_fault _ _ _) as [[k e]|];
        unfold set_I2C, bus_after; simpl; now rewrite <- app_assoc.
Qed.

Lemma send_app (xs ys : list Z) (hd : Hd44780I2c) :
  send (xs ++ ys) hd = (send xs ;; send ys) hd.
Proof.
  unfold send. revert hd. induction xs as [|x xs IH]; intros hd.
  - reflexivity.
  - simpl. unfold and_then in *.
    destruct (I2C_WriteByte x hd) as [hd' [e|]]; [reflexivity|].
    apply IH.
Qed.

(** [send] leaves the connection's own fields alone. *)
Lemma send_frame (bs : list Z) (hd : Hd44780I2c) :
  PinMap (fst (send bs hd)) = PinMap hd
  /\ backlight (fst (send bs hd)) = backlight hd
  /\ eMode (fst (send bs hd)) = eMode hd
  /\ dMode (fst (send bs hd)) = dMode hd
  /\ fMode (fst (send bs hd)) = fMode hd
  /\ i2c.faults (I2C (fst (send bs hd))) = i2c.faults (I2C hd).
Proof.
  rewrite send_spec. destruct (first_fault _ _ _) as [[k e]|]; simpl; auto 10.
Qed.

Lemma and_then_ok (a : action) (hd : Hd44780I2c) : (a ;; ok) hd = a hd.
Proof.
  unfold and_then, ok. destruct (a hd) as [hd' [e|]]; reflexivity.
Qed.

(** [write] is [send] applied to the six bytes of [wire_bytes]. *)
Lemma write_sends (data rs : Z) (hd : Hd44780I2c) :
  write data rs hd = send (wire_bytes (PinMap hd) (backlight hd) data rs) hd.
Proof.
  unfold wire_bytes. rewrite send_app.
  change (write data rs hd) with
    (for_range [instructionHigh (PinMap hd) data; instructionLow (PinMap hd) data]
       (fun ins hd0 =>
          send (strobe (PinMap hd0) (with_control (PinMap hd0) (backlight hd0) rs ins)) hd0)
       hd).
  cbn [for_range frames fst snd]. unfold and_then.
  pose proof (send_frame
                (strobe (PinMap hd)
                   (with_control (PinMap hd) (backlight hd) rs
                      (instructionHigh (PinMap hd) data))) hd)
    as (Hpm & Hbl & _).
  destruct (send _ hd) as [hd' [e|]]; [reflexivity|].
  simpl in Hpm, Hbl. rewrite Hpm, Hbl.
  destruct (send _ hd') as [hd'' [e|]]; reflexivity.
Qed.

Lemma send_same_fields (bs : list Z) (hd : Hd44780I2c) :
  same_fields hd (fst (send bs hd)).
Proof.
  destruct (send_frame bs hd) as (H1 & H2 & H3 & H4 & H5 & _).
  repeat split; assumption.
Qed.

(** Sequencing after [send]: the continuation only needs to be known on
    connections with the same fields. *)
Lemma send_then (xs ys : list Z) (k : action) (hd : Hd44780I2c) :
  (forall hd', same_fields hd hd' -> k hd' = send ys hd') ->
  (send xs ;; k) hd = send (xs ++ ys) hd.
Proof.
  intros Hk. rewrite send_app. unfold and_then.
  pose proof (send_same_fields xs hd) as Hs.
  destruct (send xs hd) as [hd' [e|]]; [reflexivity|]. now apply Hk.
Qed.

(** The same for a byte write in front. *)
Lemma write_then (data rs : Z) (ys : list Z) (k : action) (hd : Hd44780I2c) :
  (forall hd', same_fields hd hd' -> k hd' = send ys hd') ->
  (write data rs ;; k) hd
  = send (wire_bytes (PinMap hd) (backlight hd) data rs ++ ys) hd.
Proof.
  intros Hk. rewrite <- (send_then _ ys k hd Hk).
  unfold and_then. now rewrite write_sends.
Qed.

Lemma ok_sends (hd : Hd44780I2c) : ok hd = send [] hd.
Proof. reflexivity. Qed.

(** A loop of byte writes is one [send] of all their bus bytes. *)
Lemma writes_send (ws : list (Z * Z)) (hd : Hd44780I2c) :
  for_range ws (fun w => write (fst w) (snd w)) hd
  = send (wire_of (PinMap hd) (backlight hd) ws) hd.
Proof.
  revert hd. induction ws as [|[d r] ws IH]; intros hd.
  - reflexivity.
  - cbn [for_range wire_of flat_map fst snd].
    apply write_then. intros hd' (Hpm & Hbl & _).
    rewrite IH, Hpm, Hbl. reflexivity.
Qed.

Lemma for_range_map {A B : Type} (f : A -> B) (xs : list A) (body : B -> action)
  (hd : Hd44780I2c) :
  for_range (map f xs) body hd = for_range xs (fun x => body (f x)) hd.
Proof.
  revert hd. induction xs as [|x xs IH]; intros hd.
  - reflexivity.
  - simpl. unfold and_then. destruct (body (f x) hd) as [hd' [e|]]; auto.
Qed.

(** What [send] appends to the wire log. *)
Lemma emitted_send (bs : list Z) (hd : Hd44780I2c) :
  emitted (send bs) hd =
  match first_fault (i2c.faults (I2C hd)) (List.length (i2c.sent (I2C hd))) (List.length bs) with
  | None => bs
  | Some (k, _) => firstn (S k) bs
  end.
Proof.
  unfold emitted. rewrite send_spec.
  destruct (first_fault _ _ _) as [[k e]|]; simpl;
    rewrite skipn_app, skipn_all, Nat.sub_diag; reflexivity.
Qed.

(** ** Properties of fault schedules *)

Lemma first_fault_none (f : nat -> option error) (start len : nat) :
  (forall j, (j < len)%nat -> f (start + j)%nat = None) ->
  first_fault f start len = None.
Proof.
  revert start. induction len as [|len IH]; intros start H.
  - reflexivity.
  - simpl. pose proof (H O ltac:(lia)) as H0. rewrite Nat.add_0_r in H0.
    rewrite H0, IH; [reflexivity|].
    intros j Hj. specialize (H (S j) ltac:(lia)).
    now rewrite Nat.add_succ_r in H.
Qed.

Lemma first_fault_some (f : nat -> option error) (start len k : nat) (e : error) :
  (k < len)%nat ->
  f (start + k)%nat = Some e ->
  (forall j, (j < k)%nat -> f (start + j)%nat = None) ->
  first_fault f start len = Some (k, e).
Proof.
  revert start k. induction len as [|len IH]; intros start k Hk He Hbefore.
  - lia.
  - simpl. destruct k as [|k].
    + rewrite Nat.add_0_r in He. now rewrite He.
    + pose proof (Hbefore O ltac:(lia)) as H0. rewrite Nat.add_0_r in H0.
      rewrite H0, (IH (S start) k); [reflexivity|lia| |].
      * now rewrite Nat.add_succ_r in He.
      * intros j Hj. specialize (Hbefore (S j) ltac:(lia)).
        now rewrite Nat.add_succ_r in Hbefore.
Qed.

(** What [first_fault] finds is the first failing call, and when it finds
    none there is none. *)
Lemma first_fault_inv (f : nat -> option error) (start len : nat) :
  match first_fault f start len with
  | Some (k, e) =>
      (k < len)%nat /\ f (start + k)%nat = Some e
      /\ forall j, (j < k)%nat -> f (start + j)%nat = None
  | None => forall j, (j < len)%nat -> f (start + j)%nat = None
  end.
Proof.
  revert start. induction len as [|len IH]; intros start.
  - simpl. intros j Hj. lia.
  - simpl. destruct (f start) as [e|] eqn:E.
    + rewrite Nat.add_0_r. repeat split; [lia|assumption|intros j Hj; lia].
    + specialize (IH (S start)).
      destruct (first_fault f (S start) len) as [[k e]|].
      * destruct IH as (Hk & He & Hbefore).
        rewrite Nat.add_succ_r. repeat split; [lia|assumption|].
        intros [|j] Hj; [now rewrite Nat.add_0_r|].
        rewrite Nat.add_succ_r. apply Hbefore. lia.
      * intros [|j] Hj; [now rewrite Nat.add_0_r|].
        rewrite Nat.add_succ_r. apply IH. lia.
Qed.

(** ** Range of the bus bytes *)

Lemma wrap8_range (x : Z) : 0 <= wrap8 x < 256.
Proof. unfold wrap8. change (2 ^ 8) with 256. apply Z.mod_pos_bound. lia. Qed.

Lemma lor_byte (a b : Z) : 0 <= a < 256 -> 0 <= b < 256 -> 0 <= Z.lor a b < 256.
Proof.
  intros Ha Hb. split; [apply Z.lor_nonneg; lia|].
  destruct (Z.eq_dec (Z.lor a b) 0) as [->|Hnz]; [lia|].
  assert (0 < Z.lor a b) by (pose proof (proj2 (Z.lor_nonneg a b)); lia).
  change 256 with (2 ^ 8). apply Z.log2_lt_pow2; [assumption|].
  rewrite Z.log2_lor by lia.
  assert (La : Z.log2 a < 8).
  { destruct (Z.eq_dec a 0) as [->|]; [simpl; lia|].
    apply Z.log2_lt_pow2; change (2 ^ 8) with 256; lia. }
  assert (Lb : Z.log2 b < 8).
  { destruct (Z.eq_dec b 0) as [->|]; [simpl; lia|].
    apply Z.log2_lt_pow2; change (2 ^ 8) with 256; lia. }
  lia.
Qed.

Lemma instructionHigh_range (pm : I2CPinMap) (data : Z) :
  0 <= instructionHigh pm data < 256.
Proof.
  unfold instructionHigh, shl8.
  repeat apply lor_byte; try apply wrap8_range. lia.
Qed.

Lemma instructionLow_range (pm : I2CPinMap) (data : Z) :
  0 <= instructionLow pm data < 256.
Proof.
  unfold instructionLow, shl8.
  repeat apply lor_byte; try apply wrap8_range. lia.
Qed.

Lemma with_control_range (pm : I2CPinMap) (bl : bool) (rs ins : Z) :
  0 <= ins < 256 -> 0 <= with_control pm bl rs ins < 256.
Proof.
  intros H. unfold with_control, shl8.
  destruct (Bool.eqb bl (BLPolarity pm));
    repeat apply lor_byte; try apply wrap8_range; assumption.
Qed.

Lemma wire_bytes_range (pm : I2CPinMap) (bl : bool) (data rs b : Z) :
  In b (wire_bytes pm bl data rs) -> 0 <= b < 256.
Proof.
  pose proof (with_control_range pm bl rs _ (instructionHigh_range pm data)).
  pose proof (with_control_range pm bl rs _ (instructionLow_range pm data)).
  unfold wire_bytes, frames, strobe, fst, snd. simpl In.
  intros [<-|[<-|[<-|[<-|[<-|[<-|[]]]]]]]; try assumption;
    (apply lor_byte; [assumption|apply wrap8_range]).
Qed.

(** ** Which bits a bus byte can carry *)

(** Breaks a boolean hypothesis [_ = true] into its atoms. *)
Ltac split_true H :=
  repeat match type of H with
         | (_ || _) = true => apply orb_true_iff in H; destruct H as [H|H]
         | (_ && _) = true =>
             let H' := fresh H in
             apply andb_true_iff in H; destruct H as [H' H]; try split_true H'
         end.

Lemma testbit_true_nonneg (a i : Z) : Z.testbit a i = true -> 0 <= i.
Proof.
  intros H. destruct (Z.ltb_spec i 0); [|assumption].
  rewrite Z.testbit_neg_r in H by assumption. discriminate.
Qed.

(** The bits a frame can have set: a data line, register select, backlight. *)
Lemma frame_bits (pm : I2CPinMap) (bl : bool) (v r ins i : Z) :
  valid_pinmap pm ->
  r = registerSelectLow \/ r = registerSelectHigh ->
  ins = instructionHigh pm v \/ ins = instructionLow pm v ->
  Z.testbit (with_control pm bl r ins) i = true ->
  In i [RS pm; D4 pm; D5 pm; D6 pm; D7 pm; Backlight pm].
Proof.
  intros Hpm Hr Hins H.
  destruct (valid_pinmap_bounds pm Hpm) as [(HRS & _ & _ & HBL) (H4 & H5 & H6 & H7)].
  pose proof (testbit_true_nonneg _ _ H) as Hi.
  rewrite testbit_with_control in H by (assumption || lia).
  destruct Hins as [-> | ->];
    rewrite ?testbit_instructionHigh, ?testbit_instructionLow in H by lia;
    split_true H;
    repeat match goal with
           | E : (_ =? _) = true |- _ => apply Z.eqb_eq in E; subst i
           end;
    simpl; auto 10.
Qed.

(** The enable line is low in a frame of a valid pin map. *)
Lemma frame_enable_low (pm : I2CPinMap) (bl : bool) (v r ins : Z) :
  valid_pinmap pm ->
  r = registerSelectLow \/ r = registerSelectHigh ->
  ins = instructionHigh pm v \/ ins = instructionLow pm v ->
  Z.testbit (with_control pm bl r ins) (EN pm) = false.
Proof.
  intros Hpm Hr Hins.
  destruct (Z.testbit _ _) eqn:H; [exfalso|reflexivity].
  apply (frame_bits pm bl v r ins _ Hpm Hr Hins) in H. simpl in H.
  assert (N : forall p, p <> EN pm -> p = EN pm -> False) by (intros p Hp; exact Hp).
  repeat destruct H as [H|H]; try (revert H; apply N; pin_neq Hpm).
  exact H.
Qed.

(** Raising the enable line sets its bit and changes no other. *)
Lemma enable_high (pm : I2CPinMap) (ins : Z) :
  0 <= EN pm < 8 ->
  Z.testbit (Z.lor ins (shl8 1 (EN pm))) (EN pm) = true
  /\ forall i, i <> EN pm ->
       Z.testbit (Z.lor ins (shl8 1 (EN pm))) i = Z.testbit ins i.
Proof.
  intros HEN. split.
  - rewrite Z.lor_spec, testbit_pin, Z.eqb_refl by lia.
    replace (EN pm <? 8) with true by lia. apply orb_true_r.
  - intros i Hi. destruct (Z.ltb_spec i 0).
    + now rewrite !Z.testbit_neg_r by assumption.
    + rewrite Z.lor_spec, testbit_pin by lia.
      replace (i =? EN pm) with false by lia.
      now rewrite andb_false_r, orb_false_r.
Qed.

Lemma in_firstn {A : Type} (n : nat) (l : list A) (x : A) :
  In x (firstn n l) -> In x l.
Proof.
  intros H. rewrite <- (firstn_skipn n l). apply in_or_app. now left.
Qed.

(** Reading the two frames back gives the two nibbles. *)
Lemma frames_decode (pm : I2CPinMap) (bl : bool) (v r : Z) :
  valid_pinmap pm ->
  0 <= v < 256 ->
  r = registerSelectLow \/ r = registerSelectHigh ->
  decode_nibble pm (fst (frames pm bl v r)) = v / 16
  /\ decode_nibble pm (snd (frames pm bl v r)) = v mod 16.
Proof.
  intros Hpm Hv Hr.
  destruct (frames_data_lines pm bl v r Hpm Hr)
    as [(A4 & A5 & A6 & A7) (B0 & B1 & B2 & B3)].
  destruct (nibbles_of_byte v Hv) as [Nhi Nlo].
  unfold decode_nibble.
  now rewrite A4, A5, A6, A7, B0, B1, B2, B3.
Qed.

(** ** The frame encoder *)

(** C1.  For a connection with a well-formed pin map, every byte [v] and
    either register-select flag, [write] sends the strobes of two frames;
    bits 4..7 of [v] sit on the D4..D7 positions of the first frame, bits
    0..3 on the same positions of the second, and decoding both frames and
    recombining the nibbles gives [v] back. *)
Theorem write_frames_roundtrip (hd : Hd44780I2c) (v r : Z) :
  valid_pinmap (PinMap hd) ->
  0 <= v < 256 ->
  r = registerSelectLow \/ r = registerSelectHigh ->
  let pm := PinMap hd in
  let f1 := fst (frames pm (backlight hd) v r) in
  let f2 := snd (frames pm (backlight hd) v r) in
  write v r hd = send (strobe pm f1 ++ strobe pm f2) hd
  /\ (Z.testbit f1 (D4 pm) = Z.testbit v 4 /\ Z.testbit f1 (D5 pm) = Z.testbit v 5
      /\ Z.testbit f1 (D6 pm) = Z.testbit v 6 /\ Z.testbit f1 (D7 pm) = Z.testbit v 7)
  /\ (Z.testbit f2 (D4 pm) = Z.testbit v 0 /\ Z.testbit f2 (D5 pm) = Z.testbit v 1
      /\ Z.testbit f2 (D6 pm) = Z.testbit v 2 /\ Z.testbit f2 (D7 pm) = Z.testbit v 3)
  /\ decode_nibble pm f1 = v / 16
  /\ decode_nibble pm f2 = v mod 16
  /\ recombine (decode_nibble pm f1) (decode_nibble pm f2) = v.
Proof.
  intros Hpm Hv Hr pm f1 f2.
  destruct (frames_decode pm (backlight hd) v r Hpm Hv Hr) as [Dhi Dlo].
  fold f1 in Dhi. fold f2 in Dlo.
  split; [apply write_sends|].
  split; [apply (frames_data_lines pm (backlight hd) v r Hpm Hr)|].
  split; [apply (frames_data_lines pm (backlight hd) v r Hpm Hr)|].
  split; [assumption|]. split; [assumption|].
  unfold recombine. rewrite Dhi, Dlo. symmetry. apply Z.div_mod. lia.
Qed.

Lemma write_frames_roundtrip_witness :
  valid_pinmap (PinMap demo_lcd)
  /\ decode_nibble PCF8574PinMap (fst (frames PCF8574PinMap true 0xA5 registerSelectHigh)) = 0xA
  /\ decode_nibble PCF8574PinMap (snd (frames PCF8574PinMap true 0xA5 registerSelectHigh)) = 0x5
  /\ recombine
       (decode_nibble PCF8574PinMap (fst (frames PCF8574PinMap true 0xA5 registerSelectHigh)))
       (decode_nibble PCF8574PinMap (snd (frames PCF8574PinMap true 0xA5 registerSelectHigh)))
     = 0xA5.
Proof.
  split; [exact PCF8574PinMap_valid|].
  pose proof (write_frames_roundtrip demo_lcd 0xA5 registerSelectHigh
                PCF8574PinMap_valid ltac:(lia) (or_intror eq_refl))
    as (_ & _ & _ & Hhi & Hlo & Hv).
  split; [exact Hhi|]. split; [exact Hlo|exact Hv].
Defined.

(** C6.  For a connection with a well-formed pin map, whatever the byte, the
    register-select flag and the backlight state, every byte that [write]
    puts on the bus is a byte whose set bits all lie on assigned positions of
    the pin map. *)
Theorem write_sets_assigned_bits_only (hd : Hd44780I2c) (v r b : Z) :
  valid_pinmap (PinMap hd) ->
  r = registerSelectLow \/ r = registerSelectHigh ->
  In b (emitted (write v r) hd) ->
  0 <= b < 256
  /\ forall i, Z.testbit b i = true -> In i (positions (PinMap hd)).
Proof.
  intros Hpm Hr Hb.
  assert (Hw : In b (wire_bytes (PinMap hd) (backlight hd) v r)).
  { unfold emitted in Hb. rewrite write_sends in Hb.
    fold (emitted (send (wire_bytes (PinMap hd) (backlight hd) v r)) hd) in Hb.
    rewrite emitted_send in Hb.
    destruct (first_fault _ _ _) as [[k e]|]; [|assumption].
    eapply in_firstn; eassumption. }
  split; [eapply wire_bytes_range; eassumption|].
  intros i Hi. unfold positions.
  assert (Hframe : forall ins,
            ins = instructionHigh (PinMap hd) v \/ ins = instructionLow (PinMap hd) v ->
            Z.testbit (with_control (PinMap hd) (backlight hd) r ins) i = true ->
            In i [RS (PinMap hd); RW (PinMap hd); EN (PinMap hd); D4 (PinMap hd);
                  D5 (PinMap hd); D6 (PinMap hd); D7 (PinMap hd); Backlight (PinMap hd)]).
  { intros ins Hins H. apply (frame_bits _ _ v r ins i Hpm Hr Hins) in H.
    simpl in H |- *. intuition. }
  assert (Hup : forall ins,
            ins = instructionHigh (PinMap hd) v \/ ins = instructionLow (PinMap hd) v ->
            Z.testbit (Z.lor (with_control (PinMap hd) (backlight hd) r ins)
                         (shl8 1 (EN (PinMap hd)))) i = true ->
            In i [RS (PinMap hd); RW (PinMap hd); EN (PinMap hd); D4 (PinMap hd);
                  D5 (PinMap hd); D6 (PinMap hd); D7 (PinMap hd); Backlight (PinMap hd)]).
  { intros ins Hins H.
    destruct (valid_pinmap_bounds _ Hpm) as [(_ & _ & HEN & _) _].
    destruct (Z.eq_dec i (EN (PinMap hd))) as [->|Hne]; [simpl; auto|].
    rewrite (proj2 (enable_high (PinMap hd) _ HEN) i Hne) in H. now apply Hframe with ins. }
  unfold wire_bytes, frames, strobe, fst, snd in Hw. simpl In in Hw.
  destruct Hw as [<-|[<-|[<-|[<-|[<-|[<-|[]]]]]]];
    first [ now apply (Hframe _ (or_introl eq_refl))
          | now apply (Hframe _ (or_intror eq_refl))
          | now apply (Hup _ (or_introl eq_refl))
          | now apply (Hup _ (or_intror eq_refl)) ].
Qed.

Lemma write_sets_assigned_bits_only_witness :
  In 0x4D (emitted (write 0x41 registerSelectHigh) demo_lcd)
  /\ (0 <= 0x4D < 256
      /\ forall i, Z.testbit 0x4D i = true -> In i (positions PCF8574PinMap)).
Proof.
  assert (H : In 0x4D (emitted (write 0x41 registerSelectHigh) demo_lcd))
    by (vm_compute; auto).
  split; [exact H|].
  exact (write_sets_assigned_bits_only demo_lcd 0x41 registerSelectHigh 0x4D
           PCF8574PinMap_valid (or_intror eq_refl) H).
Defined.

(** ** The strobe and transport failures *)

(** C7.  For a connection with a well-formed pin map, [write] makes, for
    each of its two frames, three bus writes: the frame with the enable bit
    low, the same frame with only the enable bit raised, the frame again.  If
    no bus write fails all six are made, in this order, and the result is
    [nil].  If the [k]-th is the first to fail, nothing is sent after it, the
    bytes already sent stay on the log, and its error is the result.  Nothing
    but the transport changes. *)
Theorem write_strobes_and_aborts (hd : Hd44780I2c) (data rs : Z) :
  valid_pinmap (PinMap hd) ->
  rs = registerSelectLow \/ rs = registerSelectHigh ->
  let pm := PinMap hd in
  let f1 := fst (frames pm (backlight hd) data rs) in
  let f2 := snd (frames pm (backlight hd) data rs) in
  let high f := Z.lor f (shl8 0x01 (EN pm)) in
  let six := [f1; high f1; f1; f2; high f2; f2] in
  let n := List.length (i2c.sent (I2C hd)) in
  (forall f, f = f1 \/ f = f2 ->
     Z.testbit f (EN pm) = false
     /\ Z.testbit (high f) (EN pm) = true
     /\ forall i, i <> EN pm -> Z.testbit (high f) i = Z.testbit f i)
  /\ ((forall j, (j < 6)%nat -> i2c.faults (I2C hd) (n + j)%nat = None) ->
      write data rs hd = (set_I2C (bus_after (I2C hd) six) hd, None))
  /\ (forall k e,
        (k < 6)%nat ->
        i2c.faults (I2C hd) (n + k)%nat = Some e ->
        (forall j, (j < k)%nat -> i2c.faults (I2C hd) (n + j)%nat = None) ->
        write data rs hd
        = (set_I2C (bus_after (I2C hd) (firstn (S k) six)) hd, Some e)).
Proof.
  intros Hpm Hrs pm f1 f2 high six n.
  destruct (valid_pinmap_bounds _ Hpm) as [(_ & _ & HEN & _) _].
  assert (Hsix : wire_bytes pm (backlight hd) data rs = six) by reflexivity.
  split; [|split].
  - intros f Hf. split; [|apply (enable_high pm f HEN)].
    destruct Hf as [-> | ->]; unfold f1, f2, frames, fst, snd.
    + apply (frame_enable_low pm _ data rs _ Hpm Hrs). now left.
    + apply (frame_enable_low pm _ data rs _ Hpm Hrs). now right.
  - intros Hnone. rewrite write_sends, send_spec. fold pm. rewrite Hsix.
    fold n. change (List.length six) with 6%nat.
    now rewrite (first_fault_none _ n 6 Hnone).
  - intros k e Hk He Hbefore. rewrite write_sends, send_spec. fold pm.
    rewrite Hsix. fold n. change (List.length six) with 6%nat.
    now rewrite (first_fault_some _ n 6 k e Hk He Hbefore).
Qed.

Lemma write_strobes_and_aborts_witness :
  valid_pinmap PCF8574PinMap
  /\ write 0x41 registerSelectHigh
       {| I2C := failing_at 4 (i2c.Errno 5); PinMap := PCF8574PinMap; backlight := true;
          eMode := 0x02; dMode := 0x04; fMode := 0x08 |}
     = ({| I2C := {| i2c.sent := [0x49; 0x4D; 0x49; 0x19; 0x1D];
                     i2c.faults := i2c.faults (failing_at 4 (i2c.Errno 5)) |};
           PinMap := PCF8574PinMap; backlight := true;
           eMode := 0x02; dMode := 0x04; fMode := 0x08 |},
        Some (i2c.Errno 5)).
Proof.
  split; [exact PCF8574PinMap_valid|].
  pose proof (write_strobes_and_aborts
                {| I2C := failing_at 4 (i2c.Errno 5); PinMap := PCF8574PinMap;
                   backlight := true; eMode := 0x02; dMode := 0x04; fMode := 0x08 |}
                0x41 registerSelectHigh PCF8574PinMap_valid (or_intror eq_refl))
    as (_ & _ & Hfail).
  refine (Hfail 4%nat (i2c.Errno 5) _ eq_refl _).
  - simpl. lia.
  - intros j Hj. simpl.
    destruct j as [|[|[|[|j]]]]; try reflexivity. lia.
Defined.

(** ** Backlight *)

(** C10.  Whatever the pin map and its polarity, [BacklightOn] sets the
    backlight flag and hands the single byte 0x08 to the transport, and
    [BacklightOff] clears the flag and hands over the single byte 0x00; the
    result is the outcome of that one bus write. *)
Theorem backlight_writes_fixed_byte (hd : Hd44780I2c) :
  BacklightOn hd
  = ({| I2C := bus_after (I2C hd) [0x08]; PinMap := PinMap hd; backlight := true;
        eMode := eMode hd; dMode := dMode hd; fMode := fMode hd |},
     i2c.faults (I2C hd) (List.length (i2c.sent (I2C hd))))
  /\ BacklightOff hd
     = ({| I2C := bus_after (I2C hd) [0x00]; PinMap := PinMap hd; backlight := false;
           eMode := eMode hd; dMode := dMode hd; fMode := fMode hd |},
        i2c.faults (I2C hd) (List.length (i2c.sent (I2C hd)))).
Proof. split; reflexivity. Qed.

(** ** Mode setters *)

Lemma land_twice (a m : Z) : Z.land (Z.land a m) m = Z.land a m.
Proof. now rewrite <- Z.land_assoc, Z.land_diag. Qed.

Lemma lor_twice (a m : Z) : Z.lor (Z.lor a m) m = Z.lor a m.
Proof. now rewrite <- Z.lor_assoc, Z.lor_diag. Qed.

(** C9.  Each of the sixteen mode setters is idempotent: applied twice it
    leaves the connection, and so the entry, display and function bitfields,
    as one application does. *)
Theorem mode_setter_idempotent (m : ModeSetter) (hd : Hd44780I2c) :
  In m ModeSetters ->
  m (m hd) = m hd
  /\ eMode (m (m hd)) = eMode (m hd)
  /\ dMode (m (m hd)) = dMode (m hd)
  /\ fMode (m (m hd)) = fMode (m hd).
Proof.
  intros Hm.
  assert (H : m (m hd) = m hd).
  { unfold ModeSetters in Hm. simpl In in Hm.
    repeat (destruct Hm as [<-|Hm];
            [ unfold EntryDecrement, EntryIncrement, EntryShiftOff, EntryShiftOn,
                DisplayOff, DisplayOn, UnderlineCursorOff, UnderlineCursorOn,
                BlinkCursorOff, BlinkCursorOn, FourBitMode, EightBitMode,
                OneLine, TwoLine, Dots5x8, Dots5x10,
                set_eMode, set_dMode, set_fMode;
              cbn [I2C PinMap backlight eMode dMode fMode];
              rewrite ?land_twice, ?lor_twice; reflexivity | ]).
    destruct Hm. }
  rewrite H. auto.
Qed.

Lemma mode_setter_idempotent_witness :
  In UnderlineCursorOn ModeSetters
  /\ UnderlineCursorOn (UnderlineCursorOn demo_lcd) = UnderlineCursorOn demo_lcd.
Proof.
  assert (H : In UnderlineCursorOn ModeSetters) by (simpl; auto 10).
  split; [exact H|].
  exact (proj1 (mode_setter_idempotent UnderlineCursorOn demo_lcd H)).
Defined.

(** ** Mode commit, clear and the power-on sequence as bus traffic *)

Lemma commit_sends (hd : Hd44780I2c) :
  for_range [setEntryMode; setDisplayMode; setFunctionMode] (fun f => f) hd
  = send (wire_of (PinMap hd) (backlight hd) (mode_instructions hd)) hd.
Proof.
  cbn [for_range].
  change ((setEntryMode ;; setDisplayMode ;; setFunctionMode ;; ok) hd)
    with ((write (Z.lor lcdSetEntryMode (eMode hd)) registerSelectLow ;;
           setDisplayMode ;; setFunctionMode ;; ok) hd).
  unfold wire_of, mode_instructions. cbn [flat_map fst snd].
  apply write_then. intros h1 (Hpm1 & Hbl1 & He1 & Hd1 & Hf1).
  change ((setDisplayMode ;; setFunctionMode ;; ok) h1)
    with ((write (Z.lor lcdSetDisplayMode (dMode h1)) registerSelectLow ;;
           setFunctionMode ;; ok) h1).
  rewrite <- Hpm1, <- Hbl1, <- Hd1, <- Hf1.
  apply write_then. intros h2 (Hpm2 & Hbl2 & He2 & Hd2 & Hf2).
  change ((setFunctionMode ;; ok) h2)
    with ((write (Z.lor lcdSetFunctionMode (fMode h2)) registerSelectLow ;; ok) h2).
  rewrite <- Hpm2, <- Hbl2, <- Hf2.
  rewrite app_nil_r.
  rewrite <- (app_nil_r (wire_bytes _ _ _ _)).
  apply write_then. intros h3 _. apply ok_sends.
Qed.

Lemma SetMode_sends (modes : list ModeSetter) (hd : Hd44780I2c) :
  SetMode modes hd
  = send (wire_of (PinMap (apply_modes modes hd)) (backlight (apply_modes modes hd))
            (mode_instructions (apply_modes modes hd)))
      (apply_modes modes hd).
Proof. unfold SetMode. apply commit_sends. Qed.

Lemma Clear_sends (hd : Hd44780I2c) :
  Clear hd
  = send (wire_of (PinMap hd) (backlight hd)
            ((lcdClearDisplay, registerSelectLow) :: mode_instructions hd)) hd.
Proof.
  unfold Clear, WriteInstruction.
  change (wire_of (PinMap hd) (backlight hd)
            ((lcdClearDisplay, registerSelectLow) :: mode_instructions hd))
    with (wire_bytes (PinMap hd) (backlight hd) lcdClearDisplay registerSelectLow
          ++ wire_of (PinMap hd) (backlight hd) (mode_instructions hd)).
  apply write_then. intros h (Hpm & Hbl & He & Hd & Hf).
  rewrite SetMode_sends. cbn [apply_modes fold_left].
  unfold mode_instructions. now rewrite Hpm, Hbl, He, Hd, Hf.
Qed.

Lemma lcdInit_sends (hd : Hd44780I2c) :
  lcdInit hd
  = send (wire_of (PinMap hd) (backlight hd) (init_instructions ++ mode_instructions hd)) hd.
Proof.
  unfold lcdInit, WriteInstruction, init_instructions.
  cbn [app wire_of flat_map fst snd].
  apply write_then. intros h1 (Hpm1 & Hbl1 & He1 & Hd1 & Hf1).
  rewrite <- Hpm1, <- Hbl1.
  apply write_then. intros h2 (Hpm2 & Hbl2 & He2 & Hd2 & Hf2).
  rewrite <- Hpm2, <- Hbl2.
  apply write_then. intros h3 (Hpm3 & Hbl3 & He3 & Hd3 & Hf3).
  rewrite <- Hpm3, <- Hbl3.
  apply write_then. intros h4 (Hpm4 & Hbl4 & He4 & Hd4 & Hf4).
  rewrite Clear_sends. unfold mode_instructions.
  cbn [wire_of flat_map fst snd].
  now rewrite Hpm4, Hbl4, He4, Hd4, Hf4, Hpm3, Hbl3, He3, Hd3, Hf3,
    Hpm2, Hbl2, He2, Hd2, Hf2, Hpm1, Hbl1, He1, Hd1, Hf1.
Qed.

(** ** Clear *)

(** C8.  [Clear] leaves the entry, display and function bitfields as they
    were, so every mode query answers after it as before it, and its bus
    traffic is that of the clear instruction followed by the three mode
    instructions entry, display, function, sent until a bus write fails. *)
Theorem Clear_keeps_and_recommits_modes (hd : Hd44780I2c) :
  let hd' := fst (Clear hd) in
  (eMode hd' = eMode hd /\ dMode hd' = dMode hd /\ fMode hd' = fMode hd)
  /\ (EntryIncrementEnabled hd' = EntryIncrementEnabled hd
      /\ EntryShiftEnabled hd' = EntryShiftEnabled hd
      /\ DisplayEnabled hd' = DisplayEnabled hd
      /\ CursorEnabled hd' = CursorEnabled hd
      /\ BlinkEnabled hd' = BlinkEnabled hd
      /\ EightBitModeEnabled hd' = EightBitModeEnabled hd
      /\ TwoLineEnabled hd' = TwoLineEnabled hd)
  /\ Clear hd
     = (WriteInstruction lcdClearDisplay ;;
        WriteInstruction (Z.lor lcdSetEntryMode (eMode hd)) ;;
        WriteInstruction (Z.lor lcdSetDisplayMode (dMode hd)) ;;
        WriteInstruction (Z.lor lcdSetFunctionMode (fMode hd))) hd
  /\ Clear hd
     = send (wire_of (PinMap hd) (backlight hd)
               [ (lcdClearDisplay, registerSelectLow);
                 (Z.lor lcdSetEntryMode (eMode hd), registerSelectLow);
                 (Z.lor lcdSetDisplayMode (dMode hd), registerSelectLow);
                 (Z.lor lcdSetFunctionMode (fMode hd), registerSelectLow) ]) hd.
Proof.
  intros hd'.
  assert (Hsend : Clear hd
     = send (wire_of (PinMap hd) (backlight hd)
               [ (lcdClearDisplay, registerSelectLow);
                 (Z.lor lcdSetEntryMode (eMode hd), registerSelectLow);
                 (Z.lor lcdSetDisplayMode (dMode hd), registerSelectLow);
                 (Z.lor lcdSetFunctionMode (fMode hd), registerSelectLow) ]) hd)
    by apply Clear_sends.
  assert (Hmodes : eMode hd' = eMode hd /\ dMode hd' = dMode hd /\ fMode hd' = fMode hd).
  { subst hd'. rewrite Hsend.
    destruct (send_frame (wire_of (PinMap hd) (backlight hd)
               [ (lcdClearDisplay, registerSelectLow);
                 (Z.lor lcdSetEntryMode (eMode hd), registerSelectLow);
                 (Z.lor lcdSetDisplayMode (dMode hd), registerSelectLow);
                 (Z.lor lcdSetFunctionMode (fMode hd), registerSelectLow) ]) hd)
      as (_ & _ & He & Hd & Hf & _).
    auto. }
  destruct Hmodes as (He & Hd & Hf).
  split; [auto|]. split.
  - unfold EntryIncrementEnabled, EntryShiftEnabled, DisplayEnabled, CursorEnabled,
      BlinkEnabled, EightBitModeEnabled, TwoLineEnabled.
    rewrite He, Hd, Hf. auto 10.
  - split; [|exact Hsend].
    rewrite Hsend. symmetry. unfold WriteInstruction.
    cbn [wire_of flat_map fst snd].
    apply write_then. intros h1 (Hpm1 & Hbl1 & _). rewrite <- Hpm1, <- Hbl1.
    apply write_then. intros h2 (Hpm2 & Hbl2 & _). rewrite <- Hpm2, <- Hbl2.
    apply write_then. intros h3 (Hpm3 & Hbl3 & _). rewrite <- Hpm3, <- Hbl3.
    rewrite <- (and_then_ok (write _ _)).
    apply write_then. intros h4 _. apply ok_sends.
Qed.

(** ** The reset steps of the power-on sequence *)

(** C5, as the code has it.  Each of the three reset steps of [lcdInit] is a
    full instruction write of the byte 0x03: six bus writes, the strobe of a
    frame carrying the nibble 0000 followed by the strobe of a frame carrying
    the nibble 0011.  The sequence then goes on with the instruction 0x02,
    the clear and the mode commit. *)
Theorem lcdInit_reset_steps_are_byte_writes (hd : Hd44780I2c) :
  valid_pinmap (PinMap hd) ->
  let pm := PinMap hd in
  let reset := wire_bytes pm (backlight hd) 0x03 registerSelectLow in
  let f_high := fst (frames pm (backlight hd) 0x03 registerSelectLow) in
  let f_low := snd (frames pm (backlight hd) 0x03 registerSelectLow) in
  lcdInit hd
  = send (reset ++ reset ++ reset
          ++ wire_of pm (backlight hd)
               ((0x02, registerSelectLow) :: (lcdClearDisplay, registerSelectLow)
                :: mode_instructions hd)) hd
  /\ reset = strobe pm f_high ++ strobe pm f_low
  /\ List.length reset = 6%nat
  /\ decode_nibble pm f_high = 0
  /\ decode_nibble pm f_low = 3.
Proof.
  intros Hpm pm reset f_high f_low.
  split; [|split; [reflexivity|split; [reflexivity|]]].
  - rewrite lcdInit_sends. unfold init_instructions.
    subst reset pm. reflexivity.
  - exact (frames_decode pm (backlight hd) 0x03 registerSelectLow Hpm
             ltac:(lia) (or_introl eq_refl)).
Qed.

Lemma lcdInit_reset_steps_are_byte_writes_witness :
  valid_pinmap (PinMap demo_lcd)
  /\ wire_bytes PCF8574PinMap true 0x03 registerSelectLow
     = strobe PCF8574PinMap (fst (frames PCF8574PinMap true 0x03 registerSelectLow))
       ++ strobe PCF8574PinMap (snd (frames PCF8574PinMap true 0x03 registerSelectLow))
  /\ decode_nibble PCF8574PinMap (fst (frames PCF8574PinMap true 0x03 registerSelectLow)) = 0
  /\ decode_nibble PCF8574PinMap (snd (frames PCF8574PinMap true 0x03 registerSelectLow)) = 3.
Proof.
  split; [exact PCF8574PinMap_valid|].
  pose proof (lcdInit_reset_steps_are_byte_writes demo_lcd PCF8574PinMap_valid)
    as (_ & Hw & _ & Hhi & Hlo).
  split; [exact Hw|]. split; [exact Hhi|exact Hlo].
Defined.

(** C5 fails as stated: on a PCF8574 backpack with a transport that accepts
    every byte, the first reset step alone puts six bytes on the bus, the
    first three of them the strobe of a frame whose nibble is 0000; the nine
    bytes that three single-frame steps with the nibble 0011 would send are
    not what the bus sees. *)
Lemma lcdInit_reset_single_frame_counterexample :
  let f3 := snd (frames PCF8574PinMap true 0x03 registerSelectLow) in
  decode_nibble PCF8574PinMap f3 = 3
  /\ firstn 6 (emitted lcdInit demo_lcd) = [0x08; 0x0C; 0x08; 0x38; 0x3C; 0x38]
  /\ decode_nibble PCF8574PinMap 0x08 = 0
  /\ firstn 9 (emitted lcdInit demo_lcd)
     <> strobe PCF8574PinMap f3 ++ strobe PCF8574PinMap f3 ++ strobe PCF8574PinMap f3.
Proof.
  split; [reflexivity|]. split; [reflexivity|]. split; [reflexivity|].
  vm_compute. discriminate.
Qed.

(** ** The constructor *)

Lemma first_fault_lt (f : nat -> option error) (start len k : nat) (e : error) :
  first_fault f start len = Some (k, e) -> (k < len)%nat.
Proof.
  revert start k. induction len as [|len IH]; intros start k H; [discriminate|].
  simpl in H. destruct (f start).
  - injection H as <- _. lia.
  - destruct (first_fault f (S start) len) as [[k' e']|] eqn:E; [|discriminate].
    injection H as <- <-. apply IH in E. lia.
Qed.

Lemma first_fault_app (f : nat -> option error) (start a b : nat) :
  first_fault f start (a + b) =
  match first_fault f start a with
  | Some r => Some r
  | None =>
      match first_fault f (start + a) b with
      | Some (k, e) => Some ((a + k)%nat, e)
      | None => None
      end
  end.
Proof.
  revert start. induction a as [|a IH]; intros start.
  - simpl. rewrite Nat.add_0_r. now destruct (first_fault f start b) as [[k e]|].
  - simpl. destruct (f start); [reflexivity|].
    rewrite IH. destruct (first_fault f (S start) a) as [[k e]|]; [reflexivity|].
    rewrite Nat.add_succ_r. simpl.
    now destruct (first_fault f (S (start + a)) b) as [[k e]|].
Qed.

Lemma wire_of_app (pm : I2CPinMap) (bl : bool) (xs ys : list (Z * Z)) :
  wire_of pm bl (xs ++ ys) = wire_of pm bl xs ++ wire_of pm bl ys.
Proof. apply flat_map_app. Qed.

Lemma wire_of_length (pm : I2CPinMap) (bl : bool) (ws : list (Z * Z)) :
  List.length (wire_of pm bl ws) = (6 * List.length ws)%nat.
Proof.
  induction ws as [|w ws IH]; [reflexivity|].
  cbn [wire_of flat_map]. rewrite length_app. fold (wire_of pm bl ws).
  rewrite IH. simpl. lia.
Qed.

(** The named mode setters touch the mode bitfields only. *)
Lemma named_setter_fields (m : ModeSetter) :
  In m ModeSetters ->
  forall hd,
    I2C (m hd) = I2C hd /\ PinMap (m hd) = PinMap hd /\ backlight (m hd) = backlight hd
    /\ forall bus, m (set_I2C bus hd) = set_I2C bus (m hd).
Proof.
  intros Hm hd. unfold ModeSetters in Hm. simpl In in Hm.
  repeat (destruct Hm as [<-|Hm]; [repeat split|]).
  destruct Hm.
Qed.

Lemma apply_modes_fields (modes : list ModeSetter) :
  Forall (fun m => In m ModeSetters) modes ->
  forall hd,
    PinMap (apply_modes modes hd) = PinMap hd
    /\ backlight (apply_modes modes hd) = backlight hd
    /\ forall bus, apply_modes modes (set_I2C bus hd) = set_I2C bus (apply_modes modes hd).
Proof.
  unfold apply_modes. induction 1 as [|m modes Hm _ IH]; intros hd.
  - repeat split.
  - simpl. destruct (named_setter_fields m Hm hd) as (_ & Hpm & Hbl & Hset).
    destruct (IH (m hd)) as (Hpm' & Hbl' & Hset').
    split; [congruence|]. split; [congruence|].
    intros bus. rewrite Hset. apply Hset'.
Qed.

Lemma DefaultModes_named : Forall (fun m => In m ModeSetters) DefaultModes.
Proof.
  unfold DefaultModes, ModeSetters.
  repeat (apply Forall_cons;
          [simpl; repeat (first [left; reflexivity | right])|]).
  apply Forall_nil.
Qed.

(** C4, as the code has it.  [NewHd44780I2c] does not look at the pin map
    before it writes to the bus.  With any pin map, also one in which signals
    share a bit, it runs the power-on sequence and the mode commit, 66 bus
    writes in all; it returns the connection when none of them fails, and
    otherwise the error of the first that fails, after at least one byte has
    gone to the transport. *)
Theorem NewHd44780I2c_never_checks_pinmap
  (bus : i2c.I2C) (pm : I2CPinMap) (modes : list ModeSetter) :
  Forall (fun m => In m ModeSetters) modes ->
  let c0 := {| I2C := bus; PinMap := pm; backlight := true;
               eMode := 0x00; dMode := 0x00; fMode := 0x00 |} in
  let c1 := apply_modes (DefaultModes ++ modes) c0 in
  let bytes := wire_of pm true
                 (init_instructions ++ mode_instructions c0 ++ mode_instructions c1) in
  List.length bytes = 66%nat
  /\ NewHd44780I2c bus pm modes =
     match first_fault (i2c.faults bus) (List.length (i2c.sent bus)) 66 with
     | None => (bus_after bus bytes, inl (set_I2C (bus_after bus bytes) c1))
     | Some (k, e) => (bus_after bus (firstn (S k) bytes), inr e)
     end
  /\ (List.length (i2c.sent bus) < List.length (i2c.sent (fst (NewHd44780I2c bus pm modes))))%nat.
Proof.
  intros Hmodes c0 c1 bytes.
  assert (Hnamed : Forall (fun m => In m ModeSetters) (DefaultModes ++ modes))
    by (apply Forall_app; split; [apply DefaultModes_named|assumption]).
  destruct (apply_modes_fields _ Hnamed c0) as (Hpm & Hbl & Hset).
  fold c1 in Hpm, Hbl. simpl in Hpm, Hbl.
  set (xs := wire_of pm true (init_instructions ++ mode_instructions c0)).
  set (ys := wire_of pm true (mode_instructions c1)).
  assert (Hbytes : bytes = xs ++ ys).
  { unfold bytes, xs, ys. now rewrite <- wire_of_app, <- app_assoc. }
  assert (Hxs : List.length xs = 48%nat) by (unfold xs; now rewrite wire_of_length).
  assert (Hys : List.length ys = 18%nat) by (unfold ys; now rewrite wire_of_length).
  assert (Hlen : List.length bytes = 66%nat)
    by (rewrite Hbytes, length_app, Hxs, Hys; reflexivity).
  assert (Hrun : NewHd44780I2c bus pm modes =
     match first_fault (i2c.faults bus) (List.length (i2c.sent bus)) 66 with
     | None => (bus_after bus bytes, inl (set_I2C (bus_after bus bytes) c1))
     | Some (k, e) => (bus_after bus (firstn (S k) bytes), inr e)
     end).
  { unfold NewHd44780I2c. fold c0. rewrite lcdInit_sends.
    change (wire_of (PinMap c0) (backlight c0) (init_instructions ++ mode_instructions c0))
      with xs.
    rewrite send_spec. change (I2C c0) with bus. rewrite Hxs.
    change 66%nat with (48 + 18)%nat. rewrite first_fault_app.
    destruct (first_fault (i2c.faults bus) (List.length (i2c.sent bus)) 48)
      as [[k e]|] eqn:E1.
    - apply first_fault_lt in E1. cbn [set_I2C I2C].
      rewrite Hbytes, firstn_app, Hxs.
      replace (S k - 48)%nat with O by lia. simpl firstn at 2.
      now rewrite app_nil_r.
    - rewrite SetMode_sends, Hset. fold c1.
      change (PinMap (set_I2C (bus_after bus xs) c1)) with (PinMap c1).
      change (backlight (set_I2C (bus_after bus xs) c1)) with (backlight c1).
      change (mode_instructions (set_I2C (bus_after bus xs) c1))
        with (mode_instructions c1).
      rewrite Hpm, Hbl. fold ys. rewrite send_spec.
      cbn [set_I2C I2C bus_after i2c.sent i2c.faults].
      rewrite length_app, Hxs, Hys.
      destruct (first_fault (i2c.faults bus) (List.length (i2c.sent bus) + 48) 18)
        as [[k e]|] eqn:E2.
      + cbn [I2C set_I2C]. rewrite Hbytes. unfold bus_after. cbn [i2c.sent i2c.faults].
        replace (S (48 + k)) with (List.length xs + S k)%nat by lia.
        now rewrite firstn_app_2, app_assoc.
      + cbn [I2C set_I2C]. rewrite Hbytes. unfold bus_after. cbn [i2c.sent i2c.faults].
        rewrite <- app_assoc. unfold set_I2C. reflexivity. }
  split; [exact Hlen|]. split; [exact Hrun|].
  rewrite Hrun.
  destruct (first_fault _ _ _) as [[k e]|]; cbn [fst bus_after i2c.sent];
    rewrite length_app.
  - destruct bytes as [|b bytes']; [discriminate|]. simpl. lia.
  - rewrite Hlen. lia.
Qed.

Lemma NewHd44780I2c_never_checks_pinmap_witness :
  Forall (fun m => In m ModeSetters) [UnderlineCursorOn]
  /\ snd (NewHd44780I2c healthy_bus shared_bit_pinmap [UnderlineCursorOn])
     = inl (set_I2C (fst (NewHd44780I2c healthy_bus shared_bit_pinmap [UnderlineCursorOn]))
              {| I2C := healthy_bus; PinMap := shared_bit_pinmap; backlight := true;
                 eMode := 0x02; dMode := 0x06; fMode := 0x08 |}).
Proof.
  assert (H : Forall (fun m => In m ModeSetters) [UnderlineCursorOn]).
  { apply Forall_cons; [|apply Forall_nil].
    simpl; repeat (first [left; reflexivity | right]). }
  split; [exact H|].
  destruct (NewHd44780I2c_never_checks_pinmap healthy_bus shared_bit_pinmap
              [UnderlineCursorOn] H) as (_ & Hrun & _).
  rewrite Hrun. reflexivity.
Defined.

(** C4 fails as stated: with a pin map in which D4 and the backlight share
    bit 2, on a transport that accepts every byte, the constructor returns a
    connection, not a failure, after 66 bus writes. *)
Lemma NewHd44780I2c_shared_bit_counterexample :
  D4 shared_bit_pinmap = 2 /\ Backlight shared_bit_pinmap = 2
  /\ ~ valid_pinmap shared_bit_pinmap
  /\ (exists c, snd (NewHd44780I2c healthy_bus shared_bit_pinmap []) = inl c
                /\ PinMap c = shared_bit_pinmap)
  /\ List.length (i2c.sent (fst (NewHd44780I2c healthy_bus shared_bit_pinmap []))) = 66%nat.
Proof.
  split; [reflexivity|]. split; [reflexivity|]. split.
  - intros Hv.
    apply (valid_pinmap_distinct shared_bit_pinmap 3 7 Hv eq_refl eq_refl eq_refl).
    reflexivity.
  - split; [|vm_compute; reflexivity].
    vm_compute. eexists. split; reflexivity.
Qed.

(** ** DisplayString *)

Lemma DisplayString_sends (str : string) (line pos : Z) (hd : Hd44780I2c) :
  DisplayString str line pos hd
  = send (wire_of (PinMap hd) (backlight hd)
            ((add8 lcdSetDDRamAddr (line_address line pos), registerSelectLow)
             :: map (fun c => (wrap8 c, registerSelectHigh))
                  (range_runes (bytes_of str)))) hd.
Proof.
  unfold DisplayString, WriteInstruction. cbn [wire_of flat_map fst snd].
  apply write_then. intros hd' (Hpm & Hbl & _).
  change (fun c : Z => WriteChar (wrap8 c))
    with (fun c : Z => (fun w : Z * Z => write (fst w) (snd w))
                         ((fun c => (wrap8 c, registerSelectHigh)) c)).
  rewrite <- (for_range_map (fun c => (wrap8 c, registerSelectHigh))).
  rewrite writes_send, Hpm, Hbl. reflexivity.
Qed.

(** A run of [send] on a non-empty list reaches the transport. *)
Lemma send_reaches_bus (bs : list Z) (hd : Hd44780I2c) :
  bs <> [] ->
  (List.length (i2c.sent (I2C hd)) < List.length (i2c.sent (I2C (fst (send bs hd)))))%nat.
Proof.
  intros Hne. rewrite send_spec.
  destruct bs as [|b bs]; [congruence|].
  destruct (first_fault _ _ _) as [[k e]|]; simpl; rewrite length_app; simpl; lia.
Qed.

(** C2, as the code has it.  [DisplayString] does not check [line].  For a
    line other than 1, 2, 3, 4 the address stays 0 and the column is ignored:
    the set-address instruction 0x80 is written, then one data byte per rune
    of the string.  At least one byte goes to the transport, and the result
    is [nil] unless a bus write fails. *)
Theorem DisplayString_unchecked_line (str : string) (line pos : Z) (hd : Hd44780I2c) :
  ~ In line [1; 2; 3; 4] ->
  let bytes := wire_of (PinMap hd) (backlight hd)
                 ((0x80, registerSelectLow)
                  :: map (fun c => (wrap8 c, registerSelectHigh))
                       (range_runes (bytes_of str))) in
  DisplayString str line pos hd = send bytes hd
  /\ (List.length (i2c.sent (I2C hd))
      < List.length (i2c.sent (I2C (fst (DisplayString str line pos hd)))))%nat
  /\ (first_fault (i2c.faults (I2C hd)) (List.length (i2c.sent (I2C hd)))
        (List.length bytes) = None ->
      DisplayString str line pos hd = (set_I2C (bus_after (I2C hd) bytes) hd, None)).
Proof.
  intros Hline bytes.
  assert (Haddr : line_address line pos = 0).
  { unfold line_address. simpl In in Hline.
    destruct (Z.eqb_spec line 1); [lia|].
    destruct (Z.eqb_spec line 2); [lia|].
    destruct (Z.eqb_spec line 3); [lia|].
    destruct (Z.eqb_spec line 4); [lia|reflexivity]. }
  assert (Hsend : DisplayString str line pos hd = send bytes hd).
  { rewrite DisplayString_sends, Haddr. reflexivity. }
  split; [exact Hsend|]. rewrite Hsend. split.
  - apply send_reaches_bus. discriminate.
  - intros Hok. now rewrite send_spec, Hok.
Qed.

Lemma DisplayString_unchecked_line_witness :
  ~ In 5 [1; 2; 3; 4]
  /\ DisplayString "AB" 5 3 demo_lcd
     = (set_I2C (bus_after healthy_bus
                   (wire_of PCF8574PinMap true
                      [(0x80, registerSelectLow); (0x41, registerSelectHigh);
                       (0x42, registerSelectHigh)])) demo_lcd, None).
Proof.
  assert (H : ~ In 5 [1; 2; 3; 4]) by (simpl; lia).
  split; [exact H|].
  destruct (DisplayString_unchecked_line "AB" 5 3 demo_lcd H) as (_ & _ & Hok).
  exact (Hok eq_refl).
Defined.

(** C2 fails as stated: [DisplayString "AB" 5 3] on a transport that accepts
    every byte returns [nil] and puts eighteen bytes on the bus, the first
    six of them the set-address instruction for address 0. *)
Lemma DisplayString_line5_counterexample :
  snd (DisplayString "AB" 5 3 demo_lcd) = None
  /\ emitted (DisplayString "AB" 5 3) demo_lcd
     = [0x88; 0x8C; 0x88; 0x08; 0x0C; 0x08;
        0x49; 0x4D; 0x49; 0x19; 0x1D; 0x19;
        0x49; 0x4D; 0x49; 0x29; 0x2D; 0x29]
  /\ List.length (emitted (DisplayString "AB" 5 3) demo_lcd) <> 0%nat.
Proof. vm_compute. split; [reflexivity|]. split; [reflexivity|]. discriminate. Qed.

(** C3, as the code has it.  Lines are numbered from 1: line 1 starts at
    0x00, line 2 at 0x40, line 3 at 0x10, line 4 at 0x54.  The claimed
    traffic is that of [DisplayString "AB" 2 3]: one set-address instruction
    with the byte 0xC3, then the data writes 0x41 and 0x42, in this order. *)
Theorem DisplayString_AB_second_line (hd : Hd44780I2c) :
  (forall pos, line_address 1 pos = pos
               /\ line_address 2 pos = add8 0x40 pos
               /\ line_address 3 pos = add8 0x10 pos
               /\ line_address 4 pos = add8 0x54 pos)
  /\ add8 lcdSetDDRamAddr (line_address 2 3) = 0xC3
  /\ DisplayString "AB" 2 3 hd
     = (WriteInstruction 0xC3 ;; WriteChar 0x41 ;; WriteChar 0x42) hd
  /\ DisplayString "AB" 2 3 hd
     = send (wire_of (PinMap hd) (backlight hd)
               [(0xC3, registerSelectLow); (0x41, registerSelectHigh);
                (0x42, registerSelectHigh)]) hd
  /\ emitted (DisplayString "AB" 2 3) demo_lcd
     = [0xC8; 0xCC; 0xC8; 0x38; 0x3C; 0x38;
        0x49; 0x4D; 0x49; 0x19; 0x1D; 0x19;
        0x49; 0x4D; 0x49; 0x29; 0x2D; 0x29].
Proof.
  split; [intros pos; repeat split|]. split; [reflexivity|].
  split; [|split; [apply DisplayString_sends|reflexivity]].
  rewrite DisplayString_sends. symmetry.
  change (wire_of (PinMap hd) (backlight hd)
            ((add8 lcdSetDDRamAddr (line_address 2 3), registerSelectLow)
             :: map (fun c => (wrap8 c, registerSelectHigh))
                  (range_runes (bytes_of "AB"))))
    with (wire_bytes (PinMap hd) (backlight hd) 0xC3 registerSelectLow
          ++ wire_bytes (PinMap hd) (backlight hd) 0x41 registerSelectHigh
          ++ wire_bytes (PinMap hd) (backlight hd) 0x42 registerSelectHigh ++ []).
  unfold WriteInstruction, WriteChar.
  apply write_then. intros h1 (Hpm1 & Hbl1 & _). rewrite <- Hpm1, <- Hbl1.
  apply write_then. intros h2 (Hpm2 & Hbl2 & _). rewrite <- Hpm2, <- Hbl2.
  rewrite <- (and_then_ok (write _ _)).
  apply write_then. intros h3 _. apply ok_sends.
Qed.

(** C3 fails as stated: [DisplayString "AB" 1 3] addresses the first line;
    its set-address instruction carries the byte 0x83, not 0xC3. *)
Lemma DisplayString_AB_line1_counterexample :
  add8 lcdSetDDRamAddr (line_address 1 3) = 0x83
  /\ emitted (DisplayString "AB" 1 3) demo_lcd
     = wire_of PCF8574PinMap true
         [(0x83, registerSelectLow); (0x41, registerSelectHigh); (0x42, registerSelectHigh)]
  /\ emitted (DisplayString "AB" 1 3) demo_lcd
     <> wire_of PCF8574PinMap true
          [(0xC3, registerSelectLow); (0x41, registerSelectHigh); (0x42, registerSelectHigh)].
Proof.
  split; [reflexivity|]. split; [reflexivity|]. vm_compute. discriminate.
Qed.

(** * Further properties of the driver *)

(** ** The control lines *)

Lemma frame_control_lines (pm : I2CPinMap) (bl : bool) (v r ins : Z) :
  valid_pinmap pm ->
  r = registerSelectLow \/ r = registerSelectHigh ->
  ins = instructionHigh pm v \/ ins = instructionLow pm v ->
  Z.testbit (with_control pm bl r ins) (RW pm) = false
  /\ Z.testbit (with_control pm bl r ins) (RS pm) = (r =? 1)
  /\ Z.testbit (with_control pm bl r ins) (Backlight pm) = Bool.eqb bl (BLPolarity pm).
Proof.
  intros Hpm Hr Hins.
  destruct (valid_pinmap_bounds pm Hpm) as [(HRS & HRW & _ & HBL) (H4 & H5 & H6 & H7)].
  assert (L : forall p, 0 <= p < 8 -> (p <? 8) = true) by (intros; lia).
  destruct Hins as [-> | ->];
    (repeat split;
     rewrite testbit_with_control by (assumption || lia);
     rewrite ?testbit_instructionHigh, ?testbit_instructionLow by lia;
     pin_eqb Hpm; rewrite ?L by assumption;
     simpl; rewrite ?andb_false_r, ?orb_false_r; reflexivity).
Qed.

(** The bytes of one byte write, one by one. *)
Lemma in_wire_bytes (pm : I2CPinMap) (bl : bool) (v r b : Z) :
  In b (wire_bytes pm bl v r) ->
  exists ins,
    (ins = instructionHigh pm v \/ ins = instructionLow pm v)
    /\ (b = with_control pm bl r ins
        \/ b = Z.lor (with_control pm bl r ins) (shl8 0x01 (EN pm))).
Proof.
  unfold wire_bytes, frames, strobe, fst, snd. simpl In.
  intros [<-|[<-|[<-|[<-|[<-|[<-|[]]]]]]];
    first [ exists (instructionHigh pm v); split; [now left|]; (now left) || (now right)
          | exists (instructionLow pm v); split; [now right|]; (now left) || (now right) ].
Qed.

Lemma in_emitted_write (hd : Hd44780I2c) (v r b : Z) :
  In b (emitted (write v r) hd) ->
  In b (wire_bytes (PinMap hd) (backlight hd) v r).
Proof.
  intros Hb. unfold emitted in Hb. rewrite write_sends in Hb.
  fold (emitted (send (wire_bytes (PinMap hd) (backlight hd) v r)) hd) in Hb.
  rewrite emitted_send in Hb.
  destruct (first_fault _ _ _) as [[k e]|]; [|assumption].
  eapply in_firstn; eassumption.
Qed.

(** X1.  On a well-formed pin map every byte [write] puts on the bus has the
    read/write line low, the register-select line equal to the flag, and
    the backlight line high exactly when the backlight state equals the
    polarity of the map. *)
Theorem write_control_lines (hd : Hd44780I2c) (v r b : Z) :
  valid_pinmap (PinMap hd) ->
  r = registerSelectLow \/ r = registerSelectHigh ->
  In b (emitted (write v r) hd) ->
  Z.testbit b (RW (PinMap hd)) = false
  /\ Z.testbit b (RS (PinMap hd)) = (r =? registerSelectHigh)
  /\ Z.testbit b (Backlight (PinMap hd))
     = Bool.eqb (backlight hd) (BLPolarity (PinMap hd)).
Proof.
  intros Hpm Hr Hb. apply in_emitted_write in Hb.
  destruct (in_wire_bytes _ _ _ _ _ Hb) as (ins & Hins & Hcase).
  pose proof (frame_control_lines _ (backlight hd) v r ins Hpm Hr Hins) as Hf.
  destruct Hcase as [-> | ->]; [exact Hf|].
  destruct (valid_pinmap_bounds _ Hpm) as [(_ & _ & HEN & _) _].
  destruct (enable_high (PinMap hd) (with_control (PinMap hd) (backlight hd) r ins) HEN)
    as [_ Hsame].
  rewrite !Hsame by pin_neq Hpm. exact Hf.
Qed.

Lemma write_control_lines_witness :
  valid_pinmap (PinMap demo_mjkdz)
  /\ In 0x54 (emitted (write 0x41 registerSelectHigh) demo_mjkdz)
  /\ Z.testbit 0x54 (RW MJKDZPinMap) = false
  /\ Z.testbit 0x54 (RS MJKDZPinMap) = true
  /\ Z.testbit 0x54 (Backlight MJKDZPinMap) = false.
Proof.
  assert (H : In 0x54 (emitted (write 0x41 registerSelectHigh) demo_mjkdz))
    by (vm_compute; auto).
  split; [exact MJKDZPinMap_valid|]. split; [exact H|].
  exact (write_control_lines demo_mjkdz 0x41 registerSelectHigh 0x54
           MJKDZPinMap_valid (or_intror eq_refl) H).
Defined.

(** ** What the controller receives *)






(** ** Write *)

Lemma set_I2C_bus_after_twice (hd : Hd44780I2c) (xs ys : list Z) :
  set_I2C (bus_after (bus_after (I2C hd) xs) ys) (set_I2C (bus_after (I2C hd) xs) hd)
  = set_I2C (bus_after (I2C hd) (xs ++ ys)) hd.
Proof. unfold set_I2C, bus_after. simpl. now rewrite app_assoc. Qed.

Lemma Write_loop_spec (buf : list Z) (i : Z) (hd : Hd44780I2c) :
  let bytes := wire_of (PinMap hd) (backlight hd)
                 (map (fun c => (c, registerSelectHigh)) buf) in
  Write_loop i buf hd =
  match first_fault (i2c.faults (I2C hd)) (List.length (i2c.sent (I2C hd)))
          (6 * List.length buf) with
  | None => (set_I2C (bus_after (I2C hd) bytes) hd, None)
  | Some (k, e) =>
      (set_I2C (bus_after (I2C hd) (firstn (S k) bytes)) hd,
       Some (maxInt (i + Z.of_nat (k / 6) - 1) 0, e))
  end.
Proof.
  revert i hd. induction buf as [|c buf IH]; intros i hd bytes.
  - subst bytes. simpl. now rewrite set_I2C_same.
  - subst bytes. cbn [Write_loop map wire_of flat_map fst snd].
    fold (wire_of (PinMap hd) (backlight hd) (map (fun c => (c, registerSelectHigh)) buf)).
    set (w := wire_bytes (PinMap hd) (backlight hd) c registerSelectHigh).
    set (rest := wire_of (PinMap hd) (backlight hd)
                   (map (fun c => (c, registerSelectHigh)) buf)).
    assert (Hw : List.length w = 6%nat) by reflexivity.
    unfold WriteChar. rewrite write_sends. fold w. rewrite send_spec, Hw.
    replace (6 * List.length (c :: buf))%nat with (6 + 6 * List.length buf)%nat
      by (simpl List.length; lia).
    rewrite first_fault_app.
    destruct (first_fault (i2c.faults (I2C hd)) (List.length (i2c.sent (I2C hd))) 6)
      as [[k e]|] eqn:E1.
    + apply first_fault_lt in E1.
      rewrite firstn_app, Hw. replace (S k - 6)%nat with O by lia.
      simpl firstn at 2. rewrite app_nil_r.
      rewrite (Nat.div_small k 6) by lia. simpl Z.of_nat. now rewrite Z.add_0_r.
    + rewrite IH.
      change (PinMap (set_I2C (bus_after (I2C hd) w) hd)) with (PinMap hd).
      change (backlight (set_I2C (bus_after (I2C hd) w) hd)) with (backlight hd).
      change (I2C (set_I2C (bus_after (I2C hd) w) hd)) with (bus_after (I2C hd) w).
      change (i2c.faults (bus_after (I2C hd) w)) with (i2c.faults (I2C hd)).
      change (i2c.sent (bus_after (I2C hd) w)) with (i2c.sent (I2C hd) ++ w).
      rewrite length_app, Hw. fold rest.
      destruct (first_fault (i2c.faults (I2C hd)) (List.length (i2c.sent (I2C hd)) + 6)
                  (6 * List.length buf)) as [[k e]|].
      * rewrite set_I2C_bus_after_twice.
        replace (S (6 + k)) with (List.length w + S k)%nat by (rewrite Hw; lia).
        rewrite firstn_app_2.
        replace ((6 + k) / 6)%nat with (S (k / 6)).
        2:{ replace (6 + k)%nat with (k + 1 * 6)%nat by lia.
            rewrite Nat.div_add by lia. lia. }
        rewrite Nat2Z.inj_succ.
        replace (i + 1 + Z.of_nat (k / 6) - 1) with (i + Z.succ (Z.of_nat (k / 6)) - 1) by lia.
        reflexivity.
      * now rewrite set_I2C_bus_after_twice.
Qed.

(** X3.  [Write] sends one data write per byte of the buffer.  When no bus
    write fails it returns the length of the buffer and [nil].  When the
    [k]-th bus write is the first to fail, which happens inside the byte of
    index [k / 6], it stops there and returns that error with the count
    [max (k / 6 - 1) 0]: one less than the number of bytes written in full,
    except that it is 0 when the failure is in the first byte. *)
Theorem Write_count (buf : list Z) (hd : Hd44780I2c) :
  let bytes := wire_of (PinMap hd) (backlight hd)
                 (map (fun c => (c, registerSelectHigh)) buf) in
  Write buf hd =
  match first_fault (i2c.faults (I2C hd)) (List.length (i2c.sent (I2C hd)))
          (6 * List.length buf) with
  | None => (set_I2C (bus_after (I2C hd) bytes) hd, (Z.of_nat (List.length buf), None))
  | Some (k, e) =>
      (set_I2C (bus_after (I2C hd) (firstn (S k) bytes)) hd,
       (Z.max (Z.of_nat (k / 6) - 1) 0, Some e))
  end.
Proof.
  intros bytes. unfold Write. rewrite Write_loop_spec. fold bytes.
  destruct (first_fault _ _ _) as [[k e]|]; [|reflexivity].
  unfold maxInt. rewrite Z.add_0_l.
  destruct (Z.gtb_spec (Z.of_nat (k / 6) - 1) 0);
    [rewrite Z.max_l by lia|rewrite Z.max_r by lia]; reflexivity.
Qed.

(** ** LoadCustomChars *)

Lemma for_range_app {A : Type} (xs ys : list A) (body : A -> action) (hd : Hd44780I2c) :
  for_range (xs ++ ys) body hd = (for_range xs body ;; for_range ys body) hd.
Proof.
  revert hd. induction xs as [|x xs IH]; intros hd.
  - reflexivity.
  - simpl. unfold and_then in *.
    destruct (body x hd) as [hd' [e|]]; [reflexivity|]. apply IH.
Qed.

(** A loop over rows inside a loop over glyphs is one loop over all rows. *)
Lemma for_range_concat {A : Type} (xss : list (list A)) (body : A -> action)
  (hd : Hd44780I2c) :
  for_range xss (fun xs => for_range xs body) hd = for_range (List.concat xss) body hd.
Proof.
  revert hd. induction xss as [|xs xss IH]; intros hd.
  - reflexivity.
  - cbn [for_range List.concat]. rewrite for_range_app. unfold and_then.
    destruct (for_range xs body hd) as [hd' [e|]]; [reflexivity|]. apply IH.
Qed.

Lemma LoadCustomChars_sends (chars : list (list Z)) (hd : Hd44780I2c) :
  LoadCustomChars chars hd
  = send (wire_of (PinMap hd) (backlight hd)
            ((lcdSetCGRamAddr, registerSelectLow)
             :: map (fun b => (b, registerSelectHigh)) (List.concat chars))) hd.
Proof.
  unfold LoadCustomChars, WriteInstruction. cbn [wire_of flat_map fst snd].
  apply write_then. intros hd' (Hpm & Hbl & _).
  rewrite for_range_concat.
  etransitivity.
  - symmetry.
    exact (for_range_map (fun b => (b, registerSelectHigh)) (List.concat chars)
             (fun w => write (fst w) (snd w)) hd').
  - rewrite writes_send, Hpm, Hbl. reflexivity.
Qed.

Lemma concat_rows {A : Type} (m : nat) (xss : list (list A)) (i j : nat) :
  Forall (fun xs => List.length xs = m) xss ->
  (j < m)%nat ->
  nth_error (List.concat xss) (m * i + j) = nth_error (nth i xss []) j.
Proof.
  intros Hall Hj. revert i. induction Hall as [|xs xss Hxs _ IH]; intros i.
  - simpl. destruct i; destruct (m * _ + j)%nat; destruct j; reflexivity.
  - destruct i as [|i].
    + rewrite Nat.mul_0_r. simpl. apply nth_error_app1. lia.
    + cbn [List.concat nth]. rewrite nth_error_app2 by (rewrite Hxs; lia).
      rewrite Hxs. replace (m * S i + j - m)%nat with (m * i + j)%nat by lia.
      apply IH.
Qed.

(** X4.  [LoadCustomChars] writes the instruction 0x40 and then every row of
    every glyph as a data write, sending until a bus write fails.  For eight
    glyphs of eight rows that is 65 byte writes, 390 bus bytes, and row [j]
    of glyph [i] is the data write of index [8 i + j]. *)
Theorem LoadCustomChars_streams_rows (chars : list (list Z)) (hd : Hd44780I2c) :
  custom_chars_shape chars ->
  let rows := List.concat chars in
  let bytes := wire_of (PinMap hd) (backlight hd)
                 ((0x40, registerSelectLow)
                  :: map (fun b => (b, registerSelectHigh)) rows) in
  LoadCustomChars chars hd = send bytes hd
  /\ List.length rows = 64%nat
  /\ List.length bytes = 390%nat
  /\ forall i j, (i < 8)%nat -> (j < 8)%nat ->
       nth_error rows (8 * i + j) = nth_error (nth i chars []) j.
Proof.
  intros [Hlen Hrows] rows bytes.
  assert (H64 : List.length rows = 64%nat).
  { subst rows. clear bytes.
    do 9 (destruct chars as [|? chars]; try discriminate).
    repeat match goal with
           | H : Forall _ (_ :: _) |- _ => apply Forall_cons_iff in H; destruct H as [? H]
           end.
    cbn [List.concat]. rewrite !length_app. simpl List.length. lia. }
  split; [apply LoadCustomChars_sends|]. split; [exact H64|]. split.
  - subst bytes. rewrite wire_of_length. cbn [List.length].
    rewrite length_map, H64. reflexivity.
  - intros i j _ Hj. subst rows. now apply concat_rows.
Qed.

Lemma LoadCustomChars_streams_rows_witness :
  custom_chars_shape battery_chars
  /\ nth_error (List.concat battery_chars) (8 * 2 + 5) = nth_error (nth 2 battery_chars []) 5.
Proof.
  assert (H : custom_chars_shape battery_chars).
  { split; [reflexivity|]. unfold battery_chars.
    repeat (apply Forall_cons; [reflexivity|]). apply Forall_nil. }
  split; [exact H|].
  destruct (LoadCustomChars_streams_rows battery_chars demo_lcd H) as (_ & _ & _ & Hnth).
  exact (Hnth 2%nat 5%nat ltac:(lia) ltac:(lia)).
Defined.

(** ** Mode setters and mode queries *)

Lemma land_lor_same (a m : Z) : Z.land (Z.lor a m) m = m.
Proof.
  apply Z.bits_inj'. intros i _. rewrite Z.land_spec, Z.lor_spec.
  destruct (Z.testbit a i), (Z.testbit m i); reflexivity.
Qed.

Lemma land_lor_other (a m c : Z) : Z.land m c = 0 -> Z.land (Z.lor a m) c = Z.land a c.
Proof. intros H. now rewrite Z.land_lor_distr_l, H, Z.lor_0_r. Qed.

Lemma land_land_off (a k c : Z) : Z.land k c = 0 -> Z.land (Z.land a k) c = 0.
Proof. intros H. now rewrite <- Z.land_assoc, H, Z.land_0_r. Qed.

Lemma land_land_other (a k c : Z) : Z.land k c = c -> Z.land (Z.land a k) c = Z.land a c.
Proof. intros H. now rewrite <- Z.land_assoc, H. Qed.

Ltac unfold_modes :=
  unfold queries, EntryIncrementEnabled, EntryShiftEnabled, DisplayEnabled, CursorEnabled,
    BlinkEnabled, EightBitModeEnabled, TwoLineEnabled,
    EntryDecrement, EntryIncrement, EntryShiftOff, EntryShiftOn,
    DisplayOff, DisplayOn, UnderlineCursorOff, UnderlineCursorOn,
    BlinkCursorOff, BlinkCursorOn, FourBitMode, EightBitMode,
    OneLine, TwoLine, Dots5x8, Dots5x10,
    set_eMode, set_dMode, set_fMode;
  cbn [I2C PinMap backlight eMode dMode fMode].

Ltac settle_query :=
  repeat first [ rewrite land_lor_same
               | rewrite land_lor_other by reflexivity
               | rewrite land_land_off by reflexivity
               | rewrite land_land_other by reflexivity ];
  reflexivity.

(** X5.  Each mode setter sets or clears the one flag it is named after and
    leaves the answers of all other mode queries as they were; [Dots5x8] and
    [Dots5x10], whose flag has no query, change none of the seven answers. *)
Theorem setter_changes_its_flag_only (hd : Hd44780I2c) :
  forall i s d c b e t, queries hd = (i, s, d, c, b, e, t) ->
  (queries (EntryDecrement hd) = (false, s, d, c, b, e, t)
   /\ queries (EntryIncrement hd) = (true, s, d, c, b, e, t)
   /\ queries (EntryShiftOff hd) = (i, false, d, c, b, e, t)
   /\ queries (EntryShiftOn hd) = (i, true, d, c, b, e, t))
  /\ (queries (DisplayOff hd) = (i, s, false, c, b, e, t)
      /\ queries (DisplayOn hd) = (i, s, true, c, b, e, t)
      /\ queries (UnderlineCursorOff hd) = (i, s, d, false, b, e, t)
      /\ queries (UnderlineCursorOn hd) = (i, s, d, true, b, e, t)
      /\ queries (BlinkCursorOff hd) = (i, s, d, c, false, e, t)
      /\ queries (BlinkCursorOn hd) = (i, s, d, c, true, e, t))
  /\ (queries (FourBitMode hd) = (i, s, d, c, b, false, t)
      /\ queries (EightBitMode hd) = (i, s, d, c, b, true, t)
      /\ queries (OneLine hd) = (i, s, d, c, b, e, false)
      /\ queries (TwoLine hd) = (i, s, d, c, b, e, true)
      /\ queries (Dots5x8 hd) = (i, s, d, c, b, e, t)
      /\ queries (Dots5x10 hd) = (i, s, d, c, b, e, t)).
Proof.
  intros i s d c b e t Hq. revert Hq. unfold_modes.
  intros Hq. injection Hq as <- <- <- <- <- <- <-.
  repeat split; settle_query.
Qed.

Lemma setter_changes_its_flag_only_witness :
  queries demo_lcd = (true, false, true, false, false, false, true)
  /\ queries (BlinkCursorOn demo_lcd) = (true, false, true, false, true, false, true).
Proof.
  assert (H : queries demo_lcd = (true, false, true, false, false, false, true))
    by reflexivity.
  split; [exact H|].
  destruct (setter_changes_its_flag_only demo_lcd _ _ _ _ _ _ _ H)
    as (_ & (_ & _ & _ & _ & _ & Hb) & _).
  exact Hb.
Defined.

(** ** How mode setters compose *)

Lemma testbit_byte_high (x i : Z) : 0 <= x < 256 -> 8 <= i -> Z.testbit x i = false.
Proof.
  intros Hx Hi. rewrite <- (Z.mod_small x (2 ^ 8)) by (change (2 ^ 8) with 256; lia).
  apply Z.mod_pow2_bits_high. lia.
Qed.

Lemma testbit_not8 (m i : Z) :
  0 <= i -> Z.testbit (not8 m) i = xorb (Z.testbit m i) (i <? 8).
Proof.
  intros Hi. unfold not8. rewrite Z.lxor_spec. f_equal.
  change 255 with (Z.ones 8). now rewrite Z.testbit_ones_nonneg by lia.
Qed.

Lemma lor_land_not8 (x m : Z) :
  0 <= x < 256 -> 0 <= m < 256 ->
  Z.lor (Z.land x (not8 m)) m = Z.lor x m.
Proof.
  intros Hx Hm. apply Z.bits_inj'. intros i Hi.
  rewrite !Z.lor_spec, Z.land_spec, testbit_not8 by assumption.
  destruct (Z.ltb_spec i 8).
  - destruct (Z.testbit x i), (Z.testbit m i); reflexivity.
  - now rewrite (testbit_byte_high x), (testbit_byte_high m) by assumption.
Qed.

Lemma land_lor_not8 (x m : Z) :
  0 <= m < 256 ->
  Z.land (Z.lor x m) (not8 m) = Z.land x (not8 m).
Proof.
  intros Hm. apply Z.bits_inj'. intros i Hi.
  rewrite !Z.land_spec, Z.lor_spec, testbit_not8 by assumption.
  destruct (Z.ltb_spec i 8).
  - destruct (Z.testbit x i), (Z.testbit m i); reflexivity.
  - now rewrite (testbit_byte_high m), !andb_false_r by assumption.
Qed.

Lemma lor_swap (x a b : Z) : Z.lor (Z.lor x a) b = Z.lor (Z.lor x b) a.
Proof. now rewrite <- !Z.lor_assoc, (Z.lor_comm a b). Qed.

Lemma land_swap (x a b : Z) : Z.land (Z.land x a) b = Z.land (Z.land x b) a.
Proof. now rewrite <- !Z.land_assoc, (Z.land_comm a b). Qed.

Lemma land_lor_keep (x a k : Z) :
  Z.land a k = a -> Z.land (Z.lor x a) k = Z.lor (Z.land x k) a.
Proof. intros H. now rewrite Z.land_lor_distr_l, H. Qed.

(** X6.  Of two opposite mode setters the later one wins: clearing a flag
    after setting it is clearing it, and, the bitfields being bytes, setting
    it after clearing it is setting it. *)
Theorem opposite_setters_later_wins (off on : ModeSetter) (hd : Hd44780I2c) :
  In (off, on) opposite_setters ->
  modes_are_bytes hd ->
  off (on hd) = off hd /\ on (off hd) = on hd.
Proof.
  intros Hin (He & Hd & Hf). unfold opposite_setters in Hin. simpl In in Hin.
  repeat (destruct Hin as [Hin|Hin];
          [ injection Hin as <- <-; unfold_modes;
            rewrite land_lor_not8, lor_land_not8
              by (assumption || (unfold lcdEntryIncrement, lcdEntryShiftOn, lcdDisplayOn,
                                   lcdUnderlineCursorOn, lcdBlinkCursorOn, lcd8BitMode,
                                   lcd2Line, lcd5x10Dots; lia));
            split; reflexivity | ]).
  destruct Hin.
Qed.

Lemma opposite_setters_later_wins_witness :
  In (DisplayOff, DisplayOn) opposite_setters
  /\ modes_are_bytes demo_lcd
  /\ DisplayOff (DisplayOn demo_lcd) = DisplayOff demo_lcd
  /\ DisplayOn (DisplayOff demo_lcd) = DisplayOn demo_lcd.
Proof.
  assert (Hin : In (DisplayOff, DisplayOn) opposite_setters)
    by (simpl; right; right; left; reflexivity).
  assert (Hb : modes_are_bytes demo_lcd) by (unfold modes_are_bytes; simpl; lia).
  split; [exact Hin|]. split; [exact Hb|].
  exact (opposite_setters_later_wins DisplayOff DisplayOn demo_lcd Hin Hb).
Defined.

(** X7.  Two mode setters that are not opposite commute: the order in which
    they are given to [SetMode] or to the constructor does not matter. *)
Theorem independent_setters_commute (m1 m2 : ModeSetter) (hd : Hd44780I2c) :
  In m1 ModeSetters -> In m2 ModeSetters ->
  ~ In (m1, m2) opposite_setters -> ~ In (m2, m1) opposite_setters ->
  m1 (m2 hd) = m2 (m1 hd).
Proof.
  intros H1 H2 N12 N21. unfold ModeSetters in H1, H2. simpl In in H1, H2.
  repeat (destruct H1 as [<-|H1]; [|]); try (destruct H1);
    (repeat (destruct H2 as [<-|H2]; [|]); try (destruct H2));
    first [ reflexivity
          | solve [ unfold_modes; f_equal;
                    first [ apply lor_swap | apply land_swap
                          | apply land_lor_keep; reflexivity
                          | symmetry; apply land_lor_keep; reflexivity ] ]
          | solve [ exfalso; apply N12; simpl;
                    repeat (first [left; reflexivity | right]) ]
          | solve [ exfalso; apply N21; simpl;
                    repeat (first [left; reflexivity | right]) ] ].
Qed.

(** Refutes an equation between two pairs of setters that differ, by running
    them on the connection with all mode bits clear. *)
Ltac setters_differ H :=
  apply (f_equal (fun p : ModeSetter * ModeSetter =>
           let z := set_eMode 0 (set_dMode 0 (set_fMode 0 demo_lcd)) in
           (eMode (fst p z), dMode (fst p z), fMode (fst p z),
            eMode (snd p z), dMode (snd p z), fMode (snd p z)))) in H;
  vm_compute in H; discriminate H.

Lemma independent_setters_commute_witness :
  In TwoLine ModeSetters /\ In Dots5x10 ModeSetters
  /\ TwoLine (Dots5x10 demo_lcd) = Dots5x10 (TwoLine demo_lcd).
Proof.
  assert (H1 : In TwoLine ModeSetters)
    by (simpl; repeat (first [left; reflexivity | right])).
  assert (H2 : In Dots5x10 ModeSetters)
    by (simpl; repeat (first [left; reflexivity | right])).
  split; [exact H1|]. split; [exact H2|].
  apply (independent_setters_commute TwoLine Dots5x10 demo_lcd H1 H2).
  - simpl. intros H.
    repeat (destruct H as [H|H]; [setters_differ H|]). exact H.
  - simpl. intros H.
    repeat (destruct H as [H|H]; [setters_differ H|]). exact H.
Defined.

(** ** The mode bitfields stay within their registers *)

Lemma named_setter_keeps_range (m : ModeSetter) (hd : Hd44780I2c) :
  In m ModeSetters -> modes_in_range hd -> modes_in_range (m hd).
Proof.
  intros Hm (He & Hd & Hf). unfold ModeSetters in Hm. simpl In in Hm.
  unfold modes_in_range.
  repeat (destruct Hm as [<-|Hm];
          [ unfold_modes; repeat split; try assumption;
            first [ rewrite land_swap; congruence
                  | rewrite Z.land_lor_distr_l, ?He, ?Hd, ?Hf; reflexivity ] | ]).
  destruct Hm.
Qed.

Lemma apply_modes_keeps_range (modes : list ModeSetter) (hd : Hd44780I2c) :
  Forall (fun m => In m ModeSetters) modes ->
  modes_in_range hd -> modes_in_range (apply_modes modes hd).
Proof.
  intros Hall. revert hd. unfold apply_modes.
  induction Hall as [|m modes Hm _ IH]; intros hd Hr; [assumption|].
  simpl. apply IH. now apply named_setter_keeps_range.
Qed.

Lemma modes_in_range_same_fields (hd hd' : Hd44780I2c) :
  same_fields hd hd' -> modes_in_range hd -> modes_in_range hd'.
Proof.
  intros (_ & _ & He & Hd & Hf) (Re & Rd & Rf).
  unfold modes_in_range. now rewrite He, Hd, Hf.
Qed.

Lemma prefixed_opcode (p x n : Z) :
  0 <= n -> Z.land x (Z.ones n) = x -> Z.land p (Z.ones n) = 0 ->
  Z.lor p x = p + x /\ 0 <= x < 2 ^ n.
Proof.
  intros Hn Hx Hp. split.
  - pose proof (Z.add_lor_land p x) as H.
    assert (Z.land p x = 0).
    { rewrite <- Hx, Z.land_assoc, (Z.land_comm p x), <- Z.land_assoc, Hp.
      apply Z.land_0_r. }
    lia.
  - rewrite <- Hx, Z.land_ones by assumption. apply Z.mod_pos_bound. lia.
Qed.

(** X8.  The constructor returns, and every mode setter of the package
    keeps, a connection whose bitfields hold flags of their own register
    only; for such a connection the three instructions of a mode commit are
    an entry-mode-set in 0x04..0x07, a display-control in 0x08..0x0F and a
    function-set in 0x20..0x3F, whatever setters were applied. *)
Theorem mode_instructions_keep_their_opcode
  (bus : i2c.I2C) (pm : I2CPinMap) (modes later : list ModeSetter) (c : Hd44780I2c) :
  Forall (fun m => In m ModeSetters) modes ->
  Forall (fun m => In m ModeSetters) later ->
  snd (NewHd44780I2c bus pm modes) = inl c ->
  let c' := apply_modes later c in
  modes_in_range c'
  /\ 0x04 <= Z.lor lcdSetEntryMode (eMode c') < 0x08
  /\ 0x08 <= Z.lor lcdSetDisplayMode (dMode c') < 0x10
  /\ 0x20 <= Z.lor lcdSetFunctionMode (fMode c') < 0x40.
Proof.
  intros Hmodes Hlater Hnew c'.
  assert (Hc : modes_in_range c).
  { unfold NewHd44780I2c in Hnew.
    set (c0 := {| I2C := bus; PinMap := pm; backlight := true;
                  eMode := 0; dMode := 0; fMode := 0 |}) in Hnew.
    rewrite lcdInit_sends in Hnew.
    pose proof (send_same_fields
                  (wire_of (PinMap c0) (backlight c0)
                     (init_instructions ++ mode_instructions c0)) c0) as S0.
    destruct (send _ c0) as [c1 [e|]]; [discriminate|].
    cbn [fst] in S0. rewrite SetMode_sends in Hnew.
    set (c2 := apply_modes (DefaultModes ++ modes) c1) in Hnew.
    pose proof (send_same_fields
                  (wire_of (PinMap c2) (backlight c2) (mode_instructions c2)) c2) as S2.
    destruct (send _ c2) as [c3 [e|]]; [discriminate|].
    cbn [fst snd] in S2, Hnew. injection Hnew as <-.
    apply (modes_in_range_same_fields c2 c3 S2).
    apply apply_modes_keeps_range.
    - apply Forall_app. split; [apply DefaultModes_named|assumption].
    - apply (modes_in_range_same_fields c0 c1 S0). repeat split. }
  assert (Hc' : modes_in_range c') by now apply apply_modes_keeps_range.
  split; [exact Hc'|].
  destruct Hc' as (He & Hd & Hf).
  destruct (prefixed_opcode lcdSetEntryMode (eMode c') 2 ltac:(lia) He eq_refl) as [-> Re].
  destruct (prefixed_opcode lcdSetDisplayMode (dMode c') 3 ltac:(lia) Hd eq_refl) as [-> Rd].
  assert (Hf5 : Z.land (fMode c') (Z.ones 5) = fMode c').
  { rewrite <- Hf at 1. rewrite <- Z.land_assoc. exact Hf. }
  destruct (prefixed_opcode lcdSetFunctionMode (fMode c') 5 ltac:(lia) Hf5 eq_refl) as [-> Rf].
  unfold lcdSetEntryMode, lcdSetDisplayMode, lcdSetFunctionMode.
  change (2 ^ 2) with 4 in Re. change (2 ^ 3) with 8 in Rd. change (2 ^ 5) with 32 in Rf.
  lia.
Qed.

Lemma mode_instructions_keep_their_opcode_witness :
  Forall (fun m => In m ModeSetters) [UnderlineCursorOn]
  /\ Forall (fun m => In m ModeSetters) [Dots5x10; EntryShiftOn]
  /\ exists c, snd (NewHd44780I2c healthy_bus PCF8574PinMap [UnderlineCursorOn]) = inl c
     /\ 0x20 <= Z.lor lcdSetFunctionMode (fMode (apply_modes [Dots5x10; EntryShiftOn] c)) < 0x40.
Proof.
  assert (H1 : Forall (fun m => In m ModeSetters) [UnderlineCursorOn]).
  { apply Forall_cons; [|apply Forall_nil].
    simpl; repeat (first [left; reflexivity | right]). }
  assert (H2 : Forall (fun m => In m ModeSetters) [Dots5x10; EntryShiftOn]).
  { repeat (apply Forall_cons;
            [simpl; repeat (first [left; reflexivity | right])|]).
    apply Forall_nil. }
  split; [exact H1|]. split; [exact H2|].
  assert (Hc : exists c, snd (NewHd44780I2c healthy_bus PCF8574PinMap [UnderlineCursorOn]) = inl c)
    by (vm_compute; eexists; reflexivity).
  destruct Hc as [c Hc]. exists c. split; [exact Hc|].
  exact (proj2 (proj2 (proj2 (mode_instructions_keep_their_opcode healthy_bus PCF8574PinMap
                 [UnderlineCursorOn] [Dots5x10; EntryShiftOn] c H1 H2 Hc)))).
Defined.

(** ** The single-flag methods and SetMode *)

(** X9.  Each of the eight single-flag methods first changes its flag in
    memory and then writes the one register the flag belongs to.  The flag
    is changed, and the mode queries answer accordingly, also when the bus
    write fails; the bus traffic is that of a single instruction. *)
Theorem flag_method_sets_then_writes
  (method : action) (setter : ModeSetter) (instruction : Hd44780I2c -> Z)
  (hd : Hd44780I2c) :
  In (method, setter, instruction) flag_methods ->
  method hd
  = send (wire_bytes (PinMap hd) (backlight hd) (instruction (setter hd))
            registerSelectLow) (setter hd)
  /\ same_fields (setter hd) (fst (method hd))
  /\ queries (fst (method hd)) = queries (setter hd).
Proof.
  intros Hin.
  assert (Hrun : method hd
    = send (wire_bytes (PinMap hd) (backlight hd) (instruction (setter hd))
              registerSelectLow) (setter hd)).
  { unfold flag_methods in Hin. simpl In in Hin.
    repeat (destruct Hin as [Hin|Hin];
            [ injection Hin as <- <- <-;
              unfold Method.DisplayOff, Method.DisplayOn, Method.UnderlineCursorOff,
                Method.UnderlineCursorOn, Method.BlinkCursorOff, Method.BlinkCursorOn,
                Method.EntryShiftOn, Method.EntryShiftOff,
                setDisplayMode, setEntryMode, WriteInstruction;
              rewrite write_sends; reflexivity | ]).
    destruct Hin. }
  split; [exact Hrun|].
  assert (Hsame : same_fields (setter hd) (fst (method hd)))
    by (rewrite Hrun; apply send_same_fields).
  split; [exact Hsame|].
  destruct Hsame as (_ & _ & He & Hd & Hf).
  unfold queries, EntryIncrementEnabled, EntryShiftEnabled, DisplayEnabled, CursorEnabled,
    BlinkEnabled, EightBitModeEnabled, TwoLineEnabled.
  now rewrite He, Hd, Hf.
Qed.

Lemma flag_method_sets_then_writes_witness :
  In (Method.DisplayOff, DisplayOff, fun hd => Z.lor lcdSetDisplayMode (dMode hd))
    flag_methods
  /\ queries (fst (Method.DisplayOff
                     {| I2C := failing_at 0 (i2c.Errno 5); PinMap := PCF8574PinMap;
                        backlight := true; eMode := 0x02; dMode := 0x04; fMode := 0x08 |}))
     = queries (DisplayOff
                  {| I2C := failing_at 0 (i2c.Errno 5); PinMap := PCF8574PinMap;
                     backlight := true; eMode := 0x02; dMode := 0x04; fMode := 0x08 |}).
Proof.
  assert (H : In (Method.DisplayOff, DisplayOff,
                  fun hd => Z.lor lcdSetDisplayMode (dMode hd)) flag_methods)
    by (left; reflexivity).
  split; [exact H|].
  exact (proj2 (proj2 (flag_method_sets_then_writes _ _ _
                         {| I2C := failing_at 0 (i2c.Errno 5); PinMap := PCF8574PinMap;
                            backlight := true; eMode := 0x02; dMode := 0x04;
                            fMode := 0x08 |} H))).
Defined.

(** X10.  [SetMode] applies its setters from left to right and then commits
    once: whatever the number of setters, the bus traffic is the three mode
    instructions of the resulting bitfields, 18 bus bytes, and the setters
    stay applied in memory also when a bus write fails. *)
Theorem SetMode_applies_then_commits_once (modes : list ModeSetter) (hd : Hd44780I2c) :
  let hd1 := apply_modes modes hd in
  let bytes := wire_of (PinMap hd1) (backlight hd1)
                 [ (Z.lor lcdSetEntryMode (eMode hd1), registerSelectLow);
                   (Z.lor lcdSetDisplayMode (dMode hd1), registerSelectLow);
                   (Z.lor lcdSetFunctionMode (fMode hd1), registerSelectLow) ] in
  SetMode modes hd = send bytes hd1
  /\ List.length bytes = 18%nat
  /\ same_fields hd1 (fst (SetMode modes hd))
  /\ queries (fst (SetMode modes hd)) = queries hd1.
Proof.
  intros hd1 bytes.
  assert (Hrun : SetMode modes hd = send bytes hd1) by apply SetMode_sends.
  split; [exact Hrun|]. split; [reflexivity|].
  assert (Hsame : same_fields hd1 (fst (SetMode modes hd)))
    by (rewrite Hrun; apply send_same_fields).
  split; [exact Hsame|].
  destruct Hsame as (_ & _ & He & Hd & Hf).
  unfold queries, EntryIncrementEnabled, EntryShiftEnabled, DisplayEnabled, CursorEnabled,
    BlinkEnabled, EightBitModeEnabled, TwoLineEnabled.
  now rewrite He, Hd, Hf.
Qed.

(** ** Where DisplayString puts the cursor *)

Lemma DisplayString_instruction (line pos : Z) :
  In line [1; 2; 3; 4] -> 0 <= pos < 256 ->
  add8 lcdSetDDRamAddr (line_address line pos) = wrap8 (0x80 + (row_base line + pos)).
Proof.
  intros Hline Hpos. simpl In in Hline.
  unfold line_address, row_base, add8, wrap8, lcdSetDDRamAddr.
  destruct Hline as [<-|[<-|[<-|[<-|[]]]]]; cbn [Z.eqb Pos.eqb];
    rewrite ?Zplus_mod_idemp_r, ?Z.add_0_l; reflexivity.
Qed.

(** X11.  For the lines 1..4 [DisplayString] sends the instruction byte
    (0x80 + base + column) mod 256, the base being 0x00, 0x40, 0x10, 0x54;
    the column is not checked.  While base + column stays below 0x80 this is
    the set-address instruction of that address, and [DisplayString] is
    [SetDDRamAddr] followed by the data writes; from 0x80 to 0xFF the byte
    sent is base + column - 0x80, which has the set-address bit clear. *)
Theorem DisplayString_column_unchecked
  (str : string) (line pos : Z) (hd : Hd44780I2c) :
  In line [1; 2; 3; 4] ->
  0 <= pos < 256 ->
  let a := row_base line + pos in
  let chars := map (fun c => (wrap8 c, registerSelectHigh)) (range_runes (bytes_of str)) in
  DisplayString str line pos hd
  = send (wire_of (PinMap hd) (backlight hd)
            ((wrap8 (0x80 + a), registerSelectLow) :: chars)) hd
  /\ (a < 0x80 ->
      wrap8 (0x80 + a) = Z.lor lcdSetDDRamAddr a
      /\ DisplayString str line pos hd
         = (SetDDRamAddr a ;;
            for_range (range_runes (bytes_of str)) (fun c => WriteChar (wrap8 c))) hd)
  /\ (0x80 <= a < 0x100 ->
      wrap8 (0x80 + a) = a - 0x80 /\ Z.testbit (wrap8 (0x80 + a)) 7 = false).
Proof.
  intros Hline Hpos a chars.
  pose proof (DisplayString_instruction line pos Hline Hpos) as Hins. fold a in Hins.
  assert (Ha : 0 <= a).
  { subst a. unfold row_base.
    destruct (line =? 1), (line =? 2), (line =? 3); lia. }
  split; [rewrite DisplayString_sends, Hins; reflexivity|]. split.
  - intros Hlt.
    assert (Hbyte : wrap8 (0x80 + a) = Z.lor lcdSetDDRamAddr a).
    { assert (Hland : Z.land a (Z.ones 7) = a).
      { rewrite Z.land_ones by lia. apply Z.mod_small. change (2 ^ 7) with 128. lia. }
      destruct (prefixed_opcode lcdSetDDRamAddr a 7 ltac:(lia) Hland eq_refl) as [-> _].
      unfold wrap8, lcdSetDDRamAddr. apply Z.mod_small. change (2 ^ 8) with 256. lia. }
    split; [exact Hbyte|].
    unfold DisplayString, SetDDRamAddr. now rewrite Hins, Hbyte.
  - intros Hrange.
    assert (Hbyte : wrap8 (0x80 + a) = a - 0x80).
    { unfold wrap8. change (2 ^ 8) with 256.
      replace (0x80 + a) with (a - 0x80 + 1 * 256) by lia.
      rewrite Z.mod_add by lia. apply Z.mod_small. lia. }
    split; [exact Hbyte|]. rewrite Hbyte.
    rewrite <- (Z.mod_small (a - 0x80) (2 ^ 7)) by (change (2 ^ 7) with 128; lia).
    apply Z.mod_pow2_bits_high. lia.
Qed.

Lemma DisplayString_column_unchecked_witness :
  In 2 [1; 2; 3; 4]
  /\ wrap8 (0x80 + (row_base 2 + 0x40)) = 0x00
  /\ Z.testbit (wrap8 (0x80 + (row_base 2 + 0x40))) 7 = false.
Proof.
  assert (H : In 2 [1; 2; 3; 4]) by (simpl; auto).
  split; [exact H|].
  destruct (DisplayString_column_unchecked "AB" 2 0x40 demo_lcd H ltac:(lia))
    as (_ & _ & Hhigh).
  exact (Hhigh ltac:(unfold row_base; simpl; lia)).
Defined.

(** ** The characters DisplayString writes *)

Lemma bytes_eqb_eq (xs ys : list Z) : bytes_eqb xs ys = true -> xs = ys.
Proof.
  revert ys. induction xs as [|x xs IH]; intros [|y ys] H; try discriminate; [reflexivity|].
  simpl in H. apply andb_true_iff in H. destruct H as [Hxy H].
  apply Z.eqb_eq in Hxy. subst y. f_equal. now apply IH.
Qed.

(** A test that holds for the 256 byte values holds for every byte. *)
Lemma forall_byte (P : Z -> bool) :
  forallb P (map Z.of_nat (seq 0 256)) = true ->
  forall x, 0 <= x < 256 -> P x = true.
Proof.
  intros H x Hx. rewrite forallb_forall in H. apply H.
  rewrite <- (Z2Nat.id x) by lia. apply in_map. apply in_seq. lia.
Qed.

Lemma range_runes_ascii (bs : list Z) :
  Forall (fun b => b < 0x80) bs -> range_runes bs = bs.
Proof.
  induction 1 as [|b bs Hb _ IH]; [reflexivity|].
  cbn [range_runes]. replace (b <? 0x80) with true by lia. now rewrite IH.
Qed.

Lemma bytes_of_range (s : string) : Forall (fun b => 0 <= b < 256) (bytes_of s).
Proof.
  unfold bytes_of. induction s as [|a s IH]; [constructor|].
  cbn [list_ascii_of_string map]. constructor; [|exact IH].
  pose proof (N_ascii_bounded a). lia.
Qed.

(** X12.  For a string of ASCII bytes [DisplayString] writes, after the
    set-address instruction, exactly the bytes of the string as data
    writes, one per byte and in order. *)
Theorem DisplayString_ascii (str : string) (line pos : Z) (hd : Hd44780I2c) :
  Forall (fun b => b < 0x80) (bytes_of str) ->
  DisplayString str line pos hd
  = send (wire_of (PinMap hd) (backlight hd)
            ((add8 lcdSetDDRamAddr (line_address line pos), registerSelectLow)
             :: map (fun b => (b, registerSelectHigh)) (bytes_of str))) hd
  /\ List.length (bytes_of str) = String.length str.
Proof.
  intros Hascii. split.
  - rewrite DisplayString_sends, (range_runes_ascii _ Hascii).
    do 3 f_equal. apply map_ext_in. intros b Hb. f_equal.
    pose proof (bytes_of_range str) as Hr. rewrite Forall_forall in Hr.
    unfold wrap8. apply Z.mod_small. change (2 ^ 8) with 256. now apply Hr.
  - unfold bytes_of. rewrite length_map. clear.
    induction str as [|a s IH]; [reflexivity|]. simpl. now rewrite IH.
Qed.

Lemma DisplayString_ascii_witness :
  Forall (fun b => b < 0x80) (bytes_of "line 1")
  /\ DisplayString "line 1" 1 0 demo_lcd
     = send (wire_of PCF8574PinMap true
               [ (0x80, registerSelectLow);
                 (0x6C, registerSelectHigh); (0x69, registerSelectHigh);
                 (0x6E, registerSelectHigh); (0x65, registerSelectHigh);
                 (0x20, registerSelectHigh); (0x31, registerSelectHigh) ]) demo_lcd.
Proof.
  assert (H : Forall (fun b => b < 0x80) (bytes_of "line 1")).
  { unfold bytes_of. simpl. repeat (apply Forall_cons; [lia|]). apply Forall_nil. }
  split; [exact H|].
  exact (proj1 (DisplayString_ascii "line 1" 1 0 demo_lcd H)).
Defined.

(** X13.  A character of code point [r] below 256, held in the string in
    UTF-8 as Go holds it, is written as the single data byte [r].  A raw
    byte of 0x80 or more that stands alone in the string is not valid UTF-8
    and is written as the data byte 0xFD. *)
Theorem DisplayString_latin1 (r line pos : Z) (hd : Hd44780I2c) :
  0 <= r < 256 ->
  DisplayString (utf8_of_rune r) line pos hd
  = send (wire_of (PinMap hd) (backlight hd)
            [ (add8 lcdSetDDRamAddr (line_address line pos), registerSelectLow);
              (r, registerSelectHigh) ]) hd
  /\ (0x80 <= r ->
      DisplayString (String (ascii_of_N (Z.to_N r)) EmptyString) line pos hd
      = send (wire_of (PinMap hd) (backlight hd)
                [ (add8 lcdSetDDRamAddr (line_address line pos), registerSelectLow);
                  (0xFD, registerSelectHigh) ]) hd).
Proof.
  intros Hr.
  pose proof (forall_byte
                (fun r => bytes_eqb (map wrap8 (range_runes (bytes_of (utf8_of_rune r)))) [r])
                ltac:(vm_compute; reflexivity) r Hr) as Hrune.
  pose proof (forall_byte
                (fun r => (r <? 0x80)
                          || bytes_eqb
                               (map wrap8
                                  (range_runes
                                     (bytes_of (String (ascii_of_N (Z.to_N r)) EmptyString))))
                               [0xFD])
                ltac:(vm_compute; reflexivity) r Hr) as Hraw.
  cbv beta in Hrune, Hraw.
  apply bytes_eqb_eq in Hrune.
  split.
  - rewrite DisplayString_sends. do 3 f_equal.
    rewrite <- (map_map wrap8 (fun b => (b, registerSelectHigh))), Hrune. reflexivity.
  - intros Hhigh. replace (r <? 0x80) with false in Hraw by lia.
    apply bytes_eqb_eq in Hraw.
    rewrite DisplayString_sends. do 3 f_equal.
    rewrite <- (map_map wrap8 (fun b => (b, registerSelectHigh))), Hraw. reflexivity.
Qed.

Lemma DisplayString_latin1_witness :
  0 <= 223 < 256
  /\ bytes_of (utf8_of_rune 223) = [0xC3; 0x9F]
  /\ DisplayString (utf8_of_rune 223) 1 0 demo_lcd
     = send (wire_of PCF8574PinMap true
               [(0x80, registerSelectLow); (223, registerSelectHigh)]) demo_lcd.
Proof.
  split; [lia|]. split; [reflexivity|].
  exact (proj1 (DisplayString_latin1 223 1 0 demo_lcd ltac:(lia))).
Defined.

(** ** What the bus operations leave alone *)

Lemma send_only_appends (bs : list Z) (hd : Hd44780I2c) :
  only_appends hd (fst (send bs hd)).
Proof.
  rewrite send_spec. destruct (first_fault _ _ _) as [[k e]|]; eexists; reflexivity.
Qed.

(** X14.  The operations that talk to the display never change the pin map,
    the backlight flag or the mode bitfields, and never rewrite what is
    already on the wire log: whether they succeed or fail, all they do to
    the connection is append bytes to the log. *)
Theorem bus_operations_only_append (hd : Hd44780I2c) :
  (forall v r, only_appends hd (fst (write v r hd)))
  /\ (forall v, only_appends hd (fst (WriteChar v hd)))
  /\ (forall v, only_appends hd (fst (WriteInstruction v hd)))
  /\ (forall v, only_appends hd (fst (SetDDRamAddr v hd)))
  /\ only_appends hd (fst (Home hd))
  /\ only_appends hd (fst (ShiftLeft hd))
  /\ only_appends hd (fst (ShiftRight hd))
  /\ only_appends hd (fst (Clear hd))
  /\ only_appends hd (fst (lcdInit hd))
  /\ (forall str line pos, only_appends hd (fst (DisplayString str line pos hd)))
  /\ (forall chars, only_appends hd (fst (LoadCustomChars chars hd)))
  /\ (forall buf, only_appends hd (fst (Write buf hd))).
Proof.
  assert (Hw : forall v r, only_appends hd (fst (write v r hd)))
    by (intros; rewrite write_sends; apply send_only_appends).
  split; [exact Hw|].
  split; [intros v; exact (Hw v registerSelectHigh)|].
  split; [intros v; exact (Hw v registerSelectLow)|].
  split; [intros v; exact (Hw (Z.lor lcdSetDDRamAddr v) registerSelectLow)|].
  split; [exact (Hw lcdReturnHome registerSelectLow)|].
  split; [exact (Hw (Z.lor (Z.lor lcdCursorShift lcdDisplayMove) lcdMoveLeft)
                   registerSelectLow)|].
  split; [exact (Hw (Z.lor (Z.lor lcdCursorShift lcdDisplayMove) lcdMoveRight)
                   registerSelectLow)|].
  repeat split; intros.
  - rewrite Clear_sends. apply send_only_appends.
  - rewrite lcdInit_sends. apply send_only_appends.
  - rewrite DisplayString_sends. apply send_only_appends.
  - rewrite LoadCustomChars_sends. apply send_only_appends.
  - unfold Write. rewrite Write_loop_spec.
    destruct (first_fault _ _ _) as [[k e]|]; eexists; reflexivity.
Qed.

(** ** The first revision against the pin-map revision *)

Lemma legacy_send_sim (bs : list Z) (hd : Hd44780I2c) :
  legacy_send bs (as_legacy hd) = (as_legacy (fst (send bs hd)), snd (send bs hd)).
Proof.
  unfold send. revert hd. induction bs as [|b bs IH]; intros hd; [reflexivity|].
  cbn [legacy_send for_range]. unfold Legacy.and_then, and_then.
  unfold Legacy.I2C_WriteByte, I2C_WriteByte, i2c.WriteByte.
  cbn [as_legacy Legacy.I2C Legacy.backlight].
  destruct (i2c.faults (I2C hd) (List.length (i2c.sent (I2C hd)))) as [e|];
    [reflexivity|].
  exact (IH (set_I2C {| i2c.sent := i2c.sent (I2C hd) ++ [b];
                        i2c.faults := i2c.faults (I2C hd) |} hd)).
Qed.

Lemma legacy_writeByte_sends (data rs : Z) (this : Legacy.Hd44780I2c) :
  Legacy.writeByte data rs this
  = legacy_send (legacy_bytes (Legacy.backlight this) data rs) this.
Proof.
  destruct this as [[snt flt] bl].
  unfold Legacy.writeByte, Legacy.writeFourBits, Legacy.strobe,
    Legacy.prepareFirstFourBits, Legacy.prepareSecondFourBits, legacy_bytes.
  cbn [legacy_send Legacy.backlight].
  unfold Legacy.and_then, Legacy.ok, Legacy.I2C_WriteByte, i2c.WriteByte.
  cbn [Legacy.I2C Legacy.backlight i2c.sent i2c.faults].
  destruct bl;
    repeat (match goal with
            | |- context [match flt ?n with _ => _ end] => destruct (flt n)
            end;
            cbn [Legacy.I2C Legacy.backlight i2c.sent i2c.faults]);
    reflexivity.
Qed.

Lemma legacy_bytes_PCF8574 (bl : bool) (data rs : Z) :
  0 <= data < 256 ->
  rs = registerSelectLow \/ rs = registerSelectHigh ->
  legacy_bytes bl data rs = wire_bytes PCF8574PinMap bl data rs.
Proof.
  intros Hdata Hrs. apply bytes_eqb_eq. revert data Hdata.
  destruct bl, Hrs as [-> | ->]; apply forall_byte; vm_compute; reflexivity.
Qed.

(** X15.  On a PCF8574 pin map the pin-map revision of the byte write does
    on the bus exactly what the first revision, with its hard-wired bit
    positions, does: for every byte and either register-select flag the
    same bytes reach the transport in the same order and the same error
    comes back. *)
Theorem write_refines_legacy_writeByte (hd : Hd44780I2c) (data rs : Z) :
  PinMap hd = PCF8574PinMap ->
  0 <= data < 256 ->
  rs = registerSelectLow \/ rs = registerSelectHigh ->
  Legacy.writeByte data rs (as_legacy hd)
  = (as_legacy (fst (write data rs hd)), snd (write data rs hd)).
Proof.
  intros Hpm Hdata Hrs.
  rewrite legacy_writeByte_sends. cbn [as_legacy Legacy.backlight].
  rewrite (legacy_bytes_PCF8574 _ data rs Hdata Hrs).
  rewrite write_sends, Hpm. apply legacy_send_sim.
Qed.

Lemma write_refines_legacy_writeByte_witness :
  PinMap demo_lcd = PCF8574PinMap
  /\ Legacy.writeByte 0xDF registerSelectHigh (as_legacy demo_lcd)
     = (as_legacy (fst (write 0xDF registerSelectHigh demo_lcd)),
        snd (write 0xDF registerSelectHigh demo_lcd)).
Proof.
  split; [reflexivity|].
  exact (write_refines_legacy_writeByte demo_lcd 0xDF registerSelectHigh
           eq_refl ltac:(lia) (or_intror eq_refl)).
Defined.

(** ** Defaults and overrides in the constructor *)

Lemma apply_modes_app (xs ys : list ModeSetter) (hd : Hd44780I2c) :
  apply_modes (xs ++ ys) hd = apply_modes ys (apply_modes xs hd).
Proof. unfold apply_modes. apply fold_left_app. Qed.

(** X16.  The connection the constructor returns has the pin map it was
    given, the backlight flag set, and the mode bitfields that result from
    applying the caller's setters, in order, to the defaults: entry 0x02
    (increment, no shift), display 0x04 (on, no cursor, no blink), function
    0x08 (4-bit, two lines, 5x8).  A caller's setter so overrides a default. *)
Theorem NewHd44780I2c_overrides_defaults
  (bus : i2c.I2C) (pm : I2CPinMap) (modes : list ModeSetter) (c : Hd44780I2c) :
  Forall (fun m => In m ModeSetters) modes ->
  snd (NewHd44780I2c bus pm modes) = inl c ->
  c = set_I2C (fst (NewHd44780I2c bus pm modes))
        (apply_modes modes
           {| I2C := bus; PinMap := pm; backlight := true;
              eMode := 0x02; dMode := 0x04; fMode := 0x08 |})
  /\ PinMap c = pm /\ backlight c = true.
Proof.
  intros Hmodes Hnew.
  set (d := {| I2C := bus; PinMap := pm; backlight := true;
               eMode := 0x02; dMode := 0x04; fMode := 0x08 |}).
  assert (Hc : c = set_I2C (fst (NewHd44780I2c bus pm modes)) (apply_modes modes d)).
  { unfold NewHd44780I2c in *.
    set (c0 := {| I2C := bus; PinMap := pm; backlight := true;
                  eMode := 0; dMode := 0; fMode := 0 |}) in *.
    rewrite lcdInit_sends in *.
    destruct (send_only_appends
                (wire_of (PinMap c0) (backlight c0)
                   (init_instructions ++ mode_instructions c0)) c0) as [bs1 H1].
    destruct (send _ c0) as [c1 [e|]]; [discriminate|].
    cbn [fst] in H1. subst c1. rewrite SetMode_sends in *.
    assert (H2 : apply_modes (DefaultModes ++ modes) (set_I2C (bus_after (I2C c0) bs1) c0)
                 = set_I2C (bus_after bus bs1) (apply_modes modes d)).
    { assert (Hnamed : Forall (fun m => In m ModeSetters) (DefaultModes ++ modes))
        by (apply Forall_app; split; [apply DefaultModes_named|assumption]).
      destruct (apply_modes_fields _ Hnamed c0) as (_ & _ & Hset).
      rewrite Hset, apply_modes_app. reflexivity. }
    rewrite H2 in *.
    destruct (send_only_appends
                (wire_of (PinMap (set_I2C (bus_after bus bs1) (apply_modes modes d)))
                   (backlight (set_I2C (bus_after bus bs1) (apply_modes modes d)))
                   (mode_instructions (set_I2C (bus_after bus bs1) (apply_modes modes d))))
                (set_I2C (bus_after bus bs1) (apply_modes modes d))) as [bs2 H3].
    destruct (send _ (set_I2C (bus_after bus bs1) (apply_modes modes d)))
      as [c3 [e|]]; [discriminate|].
    cbn [fst snd] in *. injection Hnew as <-. rewrite H3. reflexivity. }
  split; [exact Hc|].
  destruct (apply_modes_fields modes Hmodes d) as (Hpm & Hbl & _).
  rewrite Hc. cbn [set_I2C PinMap backlight]. split; assumption.
Qed.

Lemma NewHd44780I2c_overrides_defaults_witness :
  Forall (fun m => In m ModeSetters) [DisplayOff; EntryDecrement]
  /\ exists c, snd (NewHd44780I2c healthy_bus MJKDZPinMap [DisplayOff; EntryDecrement]) = inl c
     /\ eMode c = 0x00 /\ dMode c = 0x00 /\ fMode c = 0x08.
Proof.
  assert (H : Forall (fun m => In m ModeSetters) [DisplayOff; EntryDecrement]).
  { repeat (apply Forall_cons;
            [simpl; repeat (first [left; reflexivity | right])|]).
    apply Forall_nil. }
  split; [exact H|].
  assert (Hc : exists c,
             snd (NewHd44780I2c healthy_bus MJKDZPinMap [DisplayOff; EntryDecrement]) = inl c)
    by (vm_compute; eexists; reflexivity).
  destruct Hc as [c Hc]. exists c. split; [exact Hc|].
  destruct (NewHd44780I2c_overrides_defaults healthy_bus MJKDZPinMap
              [DisplayOff; EntryDecrement] c H Hc) as (-> & _).
  repeat split.
Defined.
